(** * Notebook5-TitrationCurves: a shallow embedding of the titration notebook

    The notebook computes the first branch of the titration curve of a weak
    acid (acetic acid) titrated with a strong base (NaOH): the equivalence
    geometry (cell 2), two volume grids built with [np.linspace] (cell 3), the
    quadratic solver [quad_solve] (cell 4) and the pH of the buffer region with
    excess acid (cell 5).

    Numbers.  The cells are embedded twice.
    - In exact arithmetic ([Float64] and the definitions that follow it):
      Python floats and numpy float64 values are real numbers, with [nan] and
      the infinities for invalid operations.  This layer carries what rounding
      does not touch: the formulas the cells compute, when cell 2 and the
      whole run raise, the shape of the grids, reference values to a stated
      tolerance, and the limit at the half-equivalence point.
    - In binary64 ([Binary64]): every operation is the IEEE 754 operation on
      Rocq's primitive floats, in the order Python evaluates it.  This layer
      carries what depends on rounding: the signs of the computed roots, the
      sign of the computed discriminant, the order of the computed pH values,
      and what the solver returns where cancellation or rounding defeats the
      formula.

    In both layers the two kinds of numbers treat invalid operations as Python
    and numpy do:
    - a Python float division by zero raises [ZeroDivisionError] (and, in
      binary64, a Python float power that overflows raises [OverflowError]);
    - a numpy float64 operation never raises: it returns [nan] or an infinity
      (and prints a RuntimeWarning). *)

From Stdlib Require Import Reals Lra Lia List ZArith Bool.
From Stdlib Require Floats Uint63.
Import ListNotations.

Local Open Scope R_scope.

(** ** numpy float64 values in exact arithmetic *)

Module Float64.

Inductive float64 : Type :=
| Fin (x : R)   (* a finite value *)
| PInf          (* inf *)
| NInf          (* -inf *)
| NaN.          (* nan *)

Definition is_finite (x : float64) : bool :=
  match x with Fin _ => true | _ => false end.

Definition is_nan (x : float64) : bool :=
  match x with NaN => true | _ => false end.

(** The infinity that has the sign of [s]; [s] is not zero where this is used. *)
Definition inf_of_sign (s : R) : float64 :=
  if Rlt_dec s 0 then NInf else PInf.

Definition neg (x : float64) : float64 :=
  match x with
  | Fin a => Fin (- a)
  | PInf => NInf
  | NInf => PInf
  | NaN => NaN
  end.

Definition add (x y : float64) : float64 :=
  match x, y with
  | NaN, _ | _, NaN => NaN
  | Fin a, Fin b => Fin (a + b)
  | PInf, NInf | NInf, PInf => NaN
  | PInf, _ | _, PInf => PInf
  | NInf, _ | _, NInf => NInf
  end.

Definition sub (x y : float64) : float64 := add x (neg y).

(** Sign of a product in which one factor is infinite: [s] is the sign of the
    infinite factor (1 or -1) and [b] the finite factor. *)
Definition inf_times (s b : R) : float64 :=
  if Req_dec_T b 0 then NaN else inf_of_sign (s * b).

Definition mul (x y : float64) : float64 :=
  match x, y with
  | NaN, _ | _, NaN => NaN
  | Fin a, Fin b => Fin (a * b)
  | PInf, Fin b | Fin b, PInf => inf_times 1 b
  | NInf, Fin b | Fin b, NInf => inf_times (-1) b
  | PInf, PInf | NInf, NInf => PInf
  | PInf, NInf | NInf, PInf => NInf
  end.

(** numpy's true division: [x / 0] is an infinity for [x <> 0] and [nan] for
    [0 / 0] (a zero divisor counts as [+0]); a finite value over an infinity
    is zero. *)
Definition div (x y : float64) : float64 :=
  match x, y with
  | NaN, _ | _, NaN => NaN
  | Fin a, Fin b =>
      if Req_dec_T b 0
      then (if Req_dec_T a 0 then NaN else inf_of_sign a)
      else Fin (a / b)
  | Fin _, PInf | Fin _, NInf => Fin 0
  | PInf, Fin b => if Rlt_dec b 0 then NInf else PInf
  | NInf, Fin b => if Rlt_dec b 0 then PInf else NInf
  | PInf, PInf | PInf, NInf | NInf, PInf | NInf, NInf => NaN
  end.

(** [x ** 2] *)
Definition square (x : float64) : float64 := mul x x.

(** [np.sqrt]: [nan] on a negative argument. *)
Definition np_sqrt (x : float64) : float64 :=
  match x with
  | Fin a => if Rlt_dec a 0 then NaN else Fin (sqrt a)
  | PInf => PInf
  | NInf | NaN => NaN
  end.

(** The decimal logarithm of a positive real. *)
Definition log10 (x : R) : R := ln x / ln 10.

(** [np.log10]: [-inf] at zero and [nan] on a negative argument. *)
Definition np_log10 (x : float64) : float64 :=
  match x with
  | Fin a =>
      if Rlt_dec a 0 then NaN
      else if Req_dec_T a 0 then NInf
      else Fin (log10 a)
  | PInf => PInf
  | NInf | NaN => NaN
  end.

(** The comparisons [<=] and [<] of float64: [nan] compares false with
    everything. *)
Definition f_le (x y : float64) : Prop :=
  match x, y with
  | NaN, _ | _, NaN => False
  | NInf, _ | _, PInf => True
  | Fin a, Fin b => a <= b
  | PInf, _ | _, NInf => False
  end.

Definition f_lt (x y : float64) : Prop :=
  match x, y with
  | NaN, _ | _, NaN => False
  | PInf, _ | _, NInf => False
  | Fin a, Fin b => a < b
  | NInf, _ | _, PInf => True
  end.

End Float64.

Import Float64.

Declare Scope float64_scope.
Delimit Scope float64_scope with f64.
Bind Scope float64_scope with float64.
Infix "+" := add : float64_scope.
Infix "-" := sub : float64_scope.
Infix "*" := mul : float64_scope.
Infix "/" := div : float64_scope.
Notation "- x" := (neg x) : float64_scope.

(** ** Python exceptions and the error monad *)

Module Py.

(** The exceptions the modelled statements can raise. *)
Inductive exn : Type :=
| ZeroDivisionError   (* Python float division by zero *)
| ValueError          (* np.linspace with a negative number of samples *)
| IndexError          (* list index out of range *)
| OverflowError.      (* Python float power out of range *)

Inductive py (A : Type) : Type :=
| Returns (a : A)
| Raises (e : exn).

Arguments Returns {A} a.
Arguments Raises {A} e.

Definition ret {A} (a : A) : py A := Returns a.

Definition bind {A B} (m : py A) (k : A -> py B) : py B :=
  match m with
  | Returns a => k a
  | Raises e => Raises e
  end.

Definition raises {A} (m : py A) : Prop := exists e, m = Raises e.

Definition succeeds {A} (m : py A) : Prop := exists a, m = Returns a.

(** Python float true division [x / y]. *)
Definition truediv (x y : R) : py R :=
  if Req_dec_T y 0 then Raises ZeroDivisionError else Returns (x / y).

(** List subscript [l[i]] for a non-negative index. *)
Definition getitem {A} (l : list A) (i : nat) : py A :=
  match nth_error l i with
  | Some a => Returns a
  | None => Raises IndexError
  end.

(** Run [f] on every element, left to right, stopping at the first exception. *)
Fixpoint mapM {A B} (f : A -> py B) (l : list A) : py (list B) :=
  match l with
  | [] => Returns []
  | a :: l' =>
      bind (f a) (fun b => bind (mapM f l') (fun bs => Returns (b :: bs)))
  end.

End Py.

Import Py.

Notation "x <- m ;; k" := (bind m (fun x => k))
  (at level 61, m at next level, right associativity).

(** ** numpy's [linspace]

    [np.linspace(start, stop, num=num, endpoint=False, retstep=True)], as the
    notebook calls it.  numpy is an external library; this follows its
    documented behaviour: a negative [num] raises [ValueError], the step is
    [(stop - start) / num] ([nan] when there is no sample) and sample [i] is
    [arange(0, num)[i] * step + start].  (Older numpy releases return
    [nan] as the step of a single sample; the samples are the same.) *)

Definition arange (num : Z) : list float64 :=
  map (fun i => Fin (INR i)) (seq 0 (Z.to_nat num)).

Definition linspace (start stop : float64) (num : Z)
  : py (list float64 * float64) :=
  if (num <? 0)%Z then Raises ValueError
  else
    let delta := (stop - start)%f64 in
    let step := if (0 <? num)%Z then (delta / Fin (IZR num))%f64 else NaN in
    let y := map (fun yi => (yi * step + start)%f64) (arange num) in
    ret (y, step).

(** ** Cell 4: the quadratic solver

    The coefficients are numpy values here, as cell 5 passes them.  The call on
    Python floats, where [b**2] can raise, is [Binary64.quad_solve]. *)

Definition quad_solve (a b c : float64) : py (list float64) :=
  let discrim := np_sqrt (square b - Fin 4 * a * c)%f64 in
  let sol1 := ((- b + discrim) / (Fin 2 * a))%f64 in
  let sol2 := ((- b - discrim) / (Fin 2 * a))%f64 in
  ret [sol1; sol2].

(** The test at the end of cell 4: the pH of the acid before any base is added. *)
Definition initial_pH : py float64 :=
  solutions <- quad_solve (Fin 1) (Fin 1.76E-5) (Fin (-0.131 * 1.76E-5)) ;;
  conc_H3O <- getitem solutions 0 ;;
  ret (- np_log10 conc_H3O)%f64.

(** ** Cells 2, 3 and 5, over the notebook's constants

    The notebook is a script over global constants; they are the variables of
    this section, and [Notebook5] below gives them the notebook's values.
    These are the cells in exact arithmetic; [Binary64] has them once more
    with every operation rounded. *)

(** What cell 2 leaves behind. *)
Record EquivalencePoint : Type := {
  acid_MolI : R;
  eq_pt : R;
  half_eq_pt : R
}.

(** What cell 3 leaves behind. *)
Record VolumeGrids : Type := {
  PreHalfEqVols : list float64;
  VolStep : float64;
  PostHalfEqVols : list float64;
  VolStep2 : float64
}.

Section Titration.

Variables acid_VolI acid_ConI base_Con : R.
Variable datapts : Z.
Variables equilibConst H3O_water : R.

(** Cell 2.  All values are Python floats, so [/] raises on a zero divisor. *)
Definition equivalence : py EquivalencePoint :=
  let acid_MolI := acid_VolI * acid_ConI in
  eq_pt <- truediv acid_MolI base_Con ;;
  half_eq_pt <- truediv eq_pt 2 ;;
  ret {| acid_MolI := acid_MolI; eq_pt := eq_pt; half_eq_pt := half_eq_pt |}.

(** Cell 3: the volumes below the half-equivalence point and those from it up
    to the equivalence point, each without its right end. *)
Definition volumes (e : EquivalencePoint) : py VolumeGrids :=
  xrange <- linspace (Fin 0) (Fin (half_eq_pt e)) datapts ;;
  let PreHalfEqVols := fst xrange in
  let VolStep := snd xrange in
  xrange <- linspace (Fin (half_eq_pt e)) (Fin (eq_pt e)) datapts ;;
  let PostHalfEqVols := fst xrange in
  let VolStep2 := snd xrange in
  ret {| PreHalfEqVols := PreHalfEqVols; VolStep := VolStep;
         PostHalfEqVols := PostHalfEqVols; VolStep2 := VolStep2 |}.

(** Cell 5 at one element [v] of [PreHalfEqVols]: numpy evaluates every
    expression of the cell elementwise over the array. *)
Definition init_baseConc (v : float64) : float64 :=
  ((v * Fin base_Con) / (v + Fin acid_VolI))%f64.

Definition init_acidConc (v : float64) : float64 :=
  ((Fin acid_ConI * Fin acid_VolI - v * Fin base_Con) / (v + Fin acid_VolI))%f64.

Definition pre_solutions (v : float64) : py (list float64) :=
  quad_solve (Fin 1)
    (init_baseConc v + Fin equilibConst + Fin H3O_water)%f64
    (init_baseConc v * Fin H3O_water - init_acidConc v * Fin equilibConst)%f64.

Definition preH3Oconc (v : float64) : py float64 :=
  sols <- pre_solutions v ;; getitem sols 0.

Definition pre_pH_at (v : float64) : py float64 :=
  h <- preH3Oconc v ;; ret (- np_log10 h)%f64.

(** Cell 5 over the whole array [PreHalfEqVols]. *)
Definition pre_pH (vols : list float64) : py (list float64) :=
  mapM pre_pH_at vols.

(** Cells 2, 3 and 5 in sequence: the points [(PreHalfEqVols, pre_pH)] that
    cell 6 plots. *)
Definition titration : py (list float64 * list float64) :=
  e <- equivalence ;;
  g <- volumes e ;;
  pHs <- pre_pH (PreHalfEqVols g) ;;
  ret (PreHalfEqVols g, pHs).

End Titration.

(** The notebook's own constants. *)
Module Notebook5.

Definition acid_VolI : R := 0.0513.
Definition acid_ConI : R := 0.131.
Definition base_Con : R := 0.0953.
Definition datapts : Z := 100.
Definition equilibConst : R := 1.76E-5.
Definition H3O_water : R := 1E-7.

Definition run : py (list float64 * list float64) :=
  titration acid_VolI acid_ConI base_Con datapts equilibConst H3O_water.

End Notebook5.

(** ** Closed forms over the reals

    The values the cells compute on finite inputs, written as real-valued
    functions; the lemmas below relate each of them to the code. *)

(** The discriminant and the two values of [quad_solve], in its order. *)
Definition discriminant (a b c : R) : R := b * b - 4 * a * c.
Definition root1 (a b c : R) : R := (- b + sqrt (discriminant a b c)) / (2 * a).
Definition root2 (a b c : R) : R := (- b - sqrt (discriminant a b c)) / (2 * a).

Section BufferModel.

Variables Va Ca Cb Ka hw : R.

(** Concentrations of the conjugate base and of the acid after [v] litres of
    titrant, and the coefficients cell 5 passes to [quad_solve]. *)
Definition baseConc (v : R) : R := v * Cb / (v + Va).
Definition acidConc (v : R) : R := (Ca * Va - v * Cb) / (v + Va).
Definition coef_b (v : R) : R := baseConc v + Ka + hw.
Definition coef_c (v : R) : R := baseConc v * hw - acidConc v * Ka.

(** The hydronium concentration cell 5 selects, and its pH. *)
Definition hydronium (v : R) : R := root1 1 (coef_b v) (coef_c v).
Definition pH_of (v : R) : R := - log10 (hydronium v).

End BufferModel.

(** Sample [i] of [linspace(lo, hi, num=n, endpoint=False)], and the array. *)
Definition grid_point (lo hi : R) (n : Z) (i : nat) : R :=
  INR i * ((hi + - lo) / IZR n) + lo.

Definition grid (lo hi : R) (n : Z) : list float64 :=
  map (fun i => Fin (grid_point lo hi n i)) (seq 0 (Z.to_nat n)).

(** The PRE_HALF volumes and the pH values cell 5 computes for them. *)
Definition pre_vols (Va Ca Cb : R) (n : Z) : list float64 :=
  grid 0 (Va * Ca / Cb / 2) n.

Definition pre_pHs (Va Ca Cb Ka hw : R) (n : Z) : list float64 :=
  map (fun i => Fin (pH_of Va Ca Cb Ka hw (grid_point 0 (Va * Ca / Cb / 2) n i)))
      (seq 0 (Z.to_nat n)).

(** [x] is within relative tolerance [rel] of the expected value [ref]. *)
Definition within_rel (x ref rel : R) : Prop := Rabs (x - ref) <= rel * Rabs ref.

(** [f], applied to the volumes just below [x0], returns finite values that
    tend to [L]. *)
Definition tends_to_from_below (f : float64 -> py float64) (x0 L : R) : Prop :=
  forall eps : R, 0 < eps ->
    exists delta : R, 0 < delta /\
      forall v : R, x0 - delta < v < x0 ->
        exists p : R, f (Fin v) = Returns (Fin p) /\ Rabs (p - L) < eps.

(** The equivalence point of the notebook's own constants. *)
Definition notebook_point : EquivalencePoint :=
  {| acid_MolI := Notebook5.acid_VolI * Notebook5.acid_ConI;
     eq_pt := Notebook5.acid_VolI * Notebook5.acid_ConI / Notebook5.base_Con;
     half_eq_pt := Notebook5.acid_VolI * Notebook5.acid_ConI / Notebook5.base_Con / 2 |}.

(** The notebook's constants at [v = V_half] and just below it. *)
Definition notebook_V_half : R := half_eq_pt notebook_point.

Definition notebook_hydronium (v : R) : R :=
  hydronium Notebook5.acid_VolI Notebook5.acid_ConI Notebook5.base_Con
    Notebook5.equilibConst Notebook5.H3O_water v.

Definition notebook_pH (v : R) : R :=
  pH_of Notebook5.acid_VolI Notebook5.acid_ConI Notebook5.base_Con
    Notebook5.equilibConst Notebook5.H3O_water v.

Ltac notebook_constants :=
  unfold notebook_V_half, notebook_point, half_eq_pt, coef_b, coef_c, baseConc,
    acidConc, Notebook5.acid_VolI, Notebook5.acid_ConI, Notebook5.base_Con,
    Notebook5.equilibConst, Notebook5.H3O_water in *.

(** ** The program in binary64

    The same cells once more, now over IEEE 754 binary64 values (Rocq's
    primitive floats), operation by operation in the order Python evaluates
    them.  Decimal literals are read as Python reads them, to the nearest
    binary64 value.  Two things are taken from the libraries and not from the
    notebook: [x ** 2] on a Python float is taken to be the correctly rounded
    square (numpy's array power with exponent 2 is [x * x]), and the decimal
    logarithm of a positive finite value, computed by the C library, is a
    parameter [log10]. *)

Module Binary64.

Import Floats.
Local Open Scope float_scope.
#[local] Set Warnings "-inexact-float".

(** A number is a Python [float] or a numpy [float64] (a scalar, or one element
    of an array).  An operation between two Python floats gives a Python
    float; an operation with a numpy operand gives a numpy value. *)
Inductive number : Type :=
| PyFloat (x : float)
| NpFloat (x : float).

Definition val (x : number) : float :=
  match x with PyFloat a | NpFloat a => a end.

Definition result (x y : number) (r : float) : number :=
  match x, y with
  | PyFloat _, PyFloat _ => PyFloat r
  | _, _ => NpFloat r
  end.

Definition plus (x y : number) : number := result x y (val x + val y).
Definition minus (x y : number) : number := result x y (val x - val y).
Definition times (x y : number) : number := result x y (val x * val y).
Definition negate (x : number) : number := result x x (- val x).

(** [x / y]: Python raises on a zero divisor of either sign; numpy returns an
    infinity or [nan]. *)
Definition truediv (x y : number) : py number :=
  match x, y with
  | PyFloat a, PyFloat b =>
      if b =? 0 then Raises ZeroDivisionError else Returns (PyFloat (a / b))
  | _, _ => Returns (NpFloat (val x / val y))
  end.

(** [x ** 2]: Python raises [OverflowError] when the square of a finite float
    overflows; numpy returns [inf]. *)
Definition pow2 (x : number) : py number :=
  match x with
  | PyFloat a =>
      if is_infinity (a * a) && negb (is_infinity a)
      then Raises OverflowError
      else Returns (PyFloat (a * a))
  | NpFloat a => Returns (NpFloat (a * a))
  end.

(** [np.sqrt] returns a numpy value, [nan] on a negative argument. *)
Definition np_sqrt (x : number) : number := NpFloat (sqrt (val x)).

(** Cell 4. *)
Definition quad_solve (a b c : number) : py (list number) :=
  b2 <- pow2 b ;;
  let discrim := np_sqrt (minus b2 (times (times (PyFloat 4) a) c)) in
  sol1 <- truediv (plus (negate b) discrim) (times (PyFloat 2) a) ;;
  sol2 <- truediv (minus (negate b) discrim) (times (PyFloat 2) a) ;;
  ret [sol1; sol2].



(** [np.linspace(start, stop, num=num, endpoint=False, retstep=True)]: the
    sample indices [0 .. num-1] as float64 values, the step
    [(stop - start) / num], and sample [i] computed as [i * step + start]
    (as [i / num * (stop - start) + start] when the step rounds to zero). *)
Definition of_Z (n : Z) : float := of_uint63 (Uint63.of_Z n).

Definition arange (num : Z) : list float :=
  map (fun i => of_Z (Z.of_nat i)) (seq 0 (Z.to_nat num)).

Definition linspace (start stop : float) (num : Z) : py (list float * float) :=
  if (num <? 0)%Z then Raises ValueError
  else
    let delta := stop - start in
    let y := arange num in
    if (0 <? num)%Z then
      let step := delta / of_Z num in
      let y := if step =? 0
               then map (fun yi => yi / of_Z num * delta) y
               else map (fun yi => yi * step) y in
      ret (map (fun yi => yi + start) y, step)
    else
      ret (map (fun yi => yi * delta + start) y, nan).

Record EquivalencePoint : Type := {
  acid_MolI : float;
  eq_pt : float;
  half_eq_pt : float
}.

Record VolumeGrids : Type := {
  PreHalfEqVols : list float;
  VolStep : float;
  PostHalfEqVols : list float;
  VolStep2 : float
}.

(** [np.log10] around the C library's [log10]: [nan] on [nan] and on negative
    values, [-inf] at either zero, [inf] at [inf]. *)
Definition np_log10 (log10 : float -> float) (x : float) : float :=
  if is_nan x || (x <? 0) then nan
  else if x =? 0 then neg_infinity
  else if x =? infinity then infinity
  else log10 x.

Section Titration.

Variables acid_VolI acid_ConI base_Con : float.
Variable datapts : Z.
Variables equilibConst H3O_water : float.
Variable log10 : float -> float.

(** Cell 2, on Python floats. *)
Definition equivalence : py EquivalencePoint :=
  let acid_MolI := times (PyFloat acid_VolI) (PyFloat acid_ConI) in
  eq_pt <- truediv acid_MolI (PyFloat base_Con) ;;
  half_eq_pt <- truediv eq_pt (PyFloat 2) ;;
  ret {| acid_MolI := val acid_MolI; eq_pt := val eq_pt;
         half_eq_pt := val half_eq_pt |}.

(** Cell 3. *)
Definition volumes (e : EquivalencePoint) : py VolumeGrids :=
  xrange <- linspace 0 (half_eq_pt e) datapts ;;
  let PreHalfEqVols := fst xrange in
  let VolStep := snd xrange in
  xrange <- linspace (half_eq_pt e) (eq_pt e) datapts ;;
  let PostHalfEqVols := fst xrange in
  let VolStep2 := snd xrange in
  ret {| PreHalfEqVols := PreHalfEqVols; VolStep := VolStep;
         PostHalfEqVols := PostHalfEqVols; VolStep2 := VolStep2 |}.

(** Cell 5 at one element [v] of the array [PreHalfEqVols]; every value here
    is a numpy value.  [coef_b] and [coef_c] are the second and third argument
    of the call of [quad_solve]. *)
Definition init_baseConc (v : float) : float := (v * base_Con) / (v + acid_VolI).

Definition init_acidConc (v : float) : float :=
  (acid_ConI * acid_VolI - v * base_Con) / (v + acid_VolI).

Definition coef_b (v : float) : float := init_baseConc v + equilibConst + H3O_water.

Definition coef_c (v : float) : float :=
  init_baseConc v * H3O_water - init_acidConc v * equilibConst.

Definition pre_solutions (v : float) : py (list number) :=
  quad_solve (PyFloat 1) (NpFloat (coef_b v)) (NpFloat (coef_c v)).

Definition preH3Oconc (v : float) : py number :=
  sols <- pre_solutions v ;; getitem sols 0.

Definition pre_pH_at (v : float) : py float :=
  h <- preH3Oconc v ;; ret (- np_log10 log10 (val h)).

(** Cell 5 over the whole array. *)
Definition pre_pH (vols : list float) : py (list float) := mapM pre_pH_at vols.

(** Cells 2 and 3: the array [PreHalfEqVols]. *)
Definition pre_half_vols : py (list float) :=
  e <- equivalence ;;
  g <- volumes e ;;
  ret (PreHalfEqVols g).

(** Cells 2, 3 and 5 in sequence. *)
Definition titration : py (list float * list float) :=
  e <- equivalence ;;
  g <- volumes e ;;
  pHs <- pre_pH (PreHalfEqVols g) ;;
  ret (PreHalfEqVols g, pHs).


End Titration.





(** The notebook's own constants. *)
Module Notebook5.

Definition acid_VolI : float := 0.0513.
Definition acid_ConI : float := 0.131.
Definition base_Con : float := 0.0953.
Definition datapts : Z := 100.
Definition equilibConst : float := 1.76E-5.
Definition H3O_water : float := 1E-7.

(** [PreHalfEqVols] and the selected concentrations for [n] samples. *)
Definition vols (n : Z) : py (list float) :=
  pre_half_vols acid_VolI acid_ConI base_Con n.



End Notebook5.



Definition SFfinite (f : spec_float) : Prop :=
  match f with
  | S754_zero _ | S754_finite _ _ _ => True
  | _ => False
  end.

End Binary64.

(** * Properties *)

(** ** float64 operations on finite values *)

Lemma div_Fin (x y : R) : y <> 0 -> (Fin x / Fin y)%f64 = Fin (x / y).
Proof.
  intros Hy. unfold div. destruct (Req_dec_T y 0) as [E | _]; [contradiction | reflexivity].
Qed.

Lemma np_sqrt_Fin (x : R) : 0 <= x -> np_sqrt (Fin x) = Fin (sqrt x).
Proof.
  intros Hx. unfold np_sqrt. destruct (Rlt_dec x 0) as [H | _]; [lra | reflexivity].
Qed.

Lemma np_sqrt_negative (x : R) : x < 0 -> np_sqrt (Fin x) = NaN.
Proof.
  intros Hx. unfold np_sqrt. destruct (Rlt_dec x 0) as [_ | H]; [reflexivity | lra].
Qed.

Lemma np_log10_Fin (x : R) : 0 < x -> np_log10 (Fin x) = Fin (log10 x).
Proof.
  intros Hx. unfold np_log10.
  destruct (Rlt_dec x 0) as [H | _]; [lra |].
  destruct (Req_dec_T x 0) as [H | _]; [lra | reflexivity].
Qed.

Lemma np_log10_negative (x : R) : x < 0 -> np_log10 (Fin x) = NaN.
Proof.
  intros Hx. unfold np_log10. destruct (Rlt_dec x 0) as [_ | H]; [reflexivity | lra].
Qed.

Lemma ln_10_pos : 0 < ln 10.
Proof. rewrite <- ln_1. apply ln_increasing; lra. Qed.

(** ** The two roots of a quadratic over the reals *)

Section Roots.

Variables a b c : R.
Hypothesis a_nonzero : a <> 0.
Hypothesis discriminant_nonneg : 0 <= discriminant a b c.

Lemma sqrt_discriminant_sqr :
  sqrt (discriminant a b c) * sqrt (discriminant a b c) = b * b - 4 * a * c.
Proof. rewrite sqrt_sqrt by assumption. reflexivity. Qed.

Lemma root1_is_root : a * (root1 a b c * root1 a b c) + b * root1 a b c + c = 0.
Proof.
  pose proof sqrt_discriminant_sqr as Hs. unfold root1.
  set (s := sqrt (discriminant a b c)) in *.
  replace (a * ((- b + s) / (2 * a) * ((- b + s) / (2 * a)))
           + b * ((- b + s) / (2 * a)) + c)
    with ((s * s - (b * b - 4 * a * c)) / (4 * a)) by (field; assumption).
  rewrite Hs. field. assumption.
Qed.

Lemma root2_is_root : a * (root2 a b c * root2 a b c) + b * root2 a b c + c = 0.
Proof.
  pose proof sqrt_discriminant_sqr as Hs. unfold root2.
  set (s := sqrt (discriminant a b c)) in *.
  replace (a * ((- b - s) / (2 * a) * ((- b - s) / (2 * a)))
           + b * ((- b - s) / (2 * a)) + c)
    with ((s * s - (b * b - 4 * a * c)) / (4 * a)) by (field; assumption).
  rewrite Hs. field. assumption.
Qed.

(** What [quad_solve] computes on finite coefficients. *)
Lemma quad_solve_Fin :
  quad_solve (Fin a) (Fin b) (Fin c) = Returns [Fin (root1 a b c); Fin (root2 a b c)].
Proof.
  unfold quad_solve, ret, square. cbn [mul sub add neg].
  replace (b * b + - (4 * a * c)) with (discriminant a b c) by (unfold discriminant; ring).
  rewrite np_sqrt_Fin by assumption. cbn [add neg].
  rewrite !div_Fin by lra.
  unfold root1, root2. do 4 f_equal.
Qed.

End Roots.

(** ** The quadratic solver in exact arithmetic *)

(** In exact arithmetic, for [a <> 0] and a non-negative discriminant, the two
    expressions of [quad_solve] are the roots, [(-b + sqrt(b^2 - 4ac)) / 2a]
    first and [(-b - sqrt(b^2 - 4ac)) / 2a] second.  The program evaluates
    them in binary64 and can miss a root altogether: see the binary64
    properties of cell 4 at the end. *)
Lemma quad_solve_roots_exact (a b c : R) :
  a <> 0 ->
  0 <= b ^ 2 - 4 * a * c ->
  let r1 := (- b + sqrt (b ^ 2 - 4 * a * c)) / (2 * a) in
  let r2 := (- b - sqrt (b ^ 2 - 4 * a * c)) / (2 * a) in
  quad_solve (Fin a) (Fin b) (Fin c) = Returns [Fin r1; Fin r2]
  /\ a * r1 ^ 2 + b * r1 + c = 0
  /\ a * r2 ^ 2 + b * r2 + c = 0.
Proof.
  intros Ha HD r1 r2.
  assert (E : b ^ 2 - 4 * a * c = discriminant a b c) by (unfold discriminant; ring).
  assert (HD' : 0 <= discriminant a b c) by (rewrite <- E; exact HD).
  subst r1 r2. rewrite E. fold (root1 a b c) (root2 a b c).
  split; [apply quad_solve_Fin; assumption |].
  split.
  - replace (root1 a b c ^ 2) with (root1 a b c * root1 a b c) by ring.
    apply root1_is_root; assumption.
  - replace (root2 a b c ^ 2) with (root2 a b c * root2 a b c) by ring.
    apply root2_is_root; assumption.
Qed.

(** ** Cell 2 on a non-zero titrant concentration *)

Lemma truediv_nonzero (x y : R) : y <> 0 -> truediv x y = Returns (x / y).
Proof.
  intros Hy. unfold truediv. destruct (Req_dec_T y 0); [contradiction | reflexivity].
Qed.

Lemma equivalence_nonzero (Va Ca Cb : R) :
  Cb <> 0 ->
  equivalence Va Ca Cb
  = Returns {| acid_MolI := Va * Ca;
               eq_pt := Va * Ca / Cb;
               half_eq_pt := Va * Ca / Cb / 2 |}.
Proof.
  intros HCb. unfold equivalence.
  rewrite truediv_nonzero by assumption. cbn [bind].
  rewrite truediv_nonzero by lra. reflexivity.
Qed.

Lemma equivalence_half (Va Ca Cb : R) (e : EquivalencePoint) :
  0 < Cb -> equivalence Va Ca Cb = Returns e -> half_eq_pt e = Va * Ca / Cb / 2.
Proof.
  intros HCb He. rewrite equivalence_nonzero in He by lra.
  injection He as <-. reflexivity.
Qed.

(** ** The buffer model with excess acid, over the reals *)

Section Buffer.

Variables Va Ca Cb Ka hw : R.
Hypothesis Va_pos : 0 < Va.
Hypothesis Ca_pos : 0 < Ca.
Hypothesis Cb_pos : 0 < Cb.
Hypothesis Ka_pos : 0 < Ka.
Hypothesis hw_nonneg : 0 <= hw.

Lemma init_baseConc_Fin (v : R) :
  0 <= v -> init_baseConc Va Cb (Fin v) = Fin (baseConc Va Cb v).
Proof.
  intros Hv. unfold init_baseConc, baseConc. cbn [mul add].
  apply div_Fin. lra.
Qed.

Lemma init_acidConc_Fin (v : R) :
  0 <= v -> init_acidConc Va Ca Cb (Fin v) = Fin (acidConc Va Ca Cb v).
Proof.
  intros Hv. unfold init_acidConc, acidConc. cbn [mul add sub neg].
  rewrite div_Fin by lra. reflexivity.
Qed.

Lemma half_scaled (v : R) : v < Va * Ca / Cb / 2 -> 2 * (v * Cb) < Va * Ca.
Proof.
  intros Hv.
  assert (H : v * Cb < Va * Ca / Cb / 2 * Cb) by (apply Rmult_lt_compat_r; assumption).
  replace (Va * Ca / Cb / 2 * Cb) with (Va * Ca / 2) in H by (field; lra).
  lra.
Qed.

Lemma baseConc_nonneg (v : R) : 0 <= v -> 0 <= baseConc Va Cb v.
Proof.
  intros Hv. unfold baseConc, Rdiv.
  apply Rmult_le_pos; [nra | left; apply Rinv_0_lt_compat; lra].
Qed.

Lemma acidConc_pos (v : R) : 0 <= v -> v * Cb < Va * Ca -> 0 < acidConc Va Ca Cb v.
Proof.
  intros Hv H. unfold acidConc, Rdiv.
  apply Rmult_lt_0_compat; [lra | apply Rinv_0_lt_compat; lra].
Qed.

Lemma base_lt_acid (v : R) :
  0 <= v -> v < Va * Ca / Cb / 2 -> baseConc Va Cb v < acidConc Va Ca Cb v.
Proof.
  intros Hv0 Hv1. apply half_scaled in Hv1.
  unfold baseConc, acidConc, Rdiv. apply Rmult_lt_compat_r.
  - apply Rinv_0_lt_compat. lra.
  - lra.
Qed.

Lemma coef_b_pos (v : R) : 0 <= v -> 0 < coef_b Va Cb Ka hw v.
Proof.
  intros Hv. unfold coef_b. pose proof (baseConc_nonneg v Hv). lra.
Qed.

Lemma coef_c_le (v : R) :
  0 <= v -> v * Cb < Va * Ca -> coef_c Va Ca Cb Ka hw v <= baseConc Va Cb v * hw.
Proof.
  intros Hv H. unfold coef_c. pose proof (acidConc_pos v Hv H) as HHA.
  assert (0 <= acidConc Va Ca Cb v * Ka) by (apply Rmult_le_pos; lra). lra.
Qed.

Lemma discriminant_lower (v : R) :
  0 <= v -> 0 <= coef_b Va Cb Ka hw v * coef_b Va Cb Ka hw v - 4 * (baseConc Va Cb v * hw).
Proof.
  intros Hv. unfold coef_b. pose proof (baseConc_nonneg v Hv) as HA.
  set (A := baseConc Va Cb v) in *.
  replace ((A + Ka + hw) * (A + Ka + hw) - 4 * (A * hw))
    with ((A - hw) * (A - hw) + Ka * Ka + 2 * (Ka * (A + hw))) by ring.
  pose proof (Rle_0_sqr (A - hw)) as H1. unfold Rsqr in H1.
  pose proof (Rle_0_sqr Ka) as H2. unfold Rsqr in H2.
  assert (H3 : 0 <= Ka * (A + hw)) by (apply Rmult_le_pos; lra).
  lra.
Qed.

Lemma discriminant_nonneg (v : R) :
  0 <= v -> v * Cb < Va * Ca ->
  0 <= discriminant 1 (coef_b Va Cb Ka hw v) (coef_c Va Ca Cb Ka hw v).
Proof.
  intros Hv H. unfold discriminant.
  pose proof (discriminant_lower v Hv). pose proof (coef_c_le v Hv H). lra.
Qed.

(** Cell 5 on a finite volume below the equivalence point. *)
Lemma pre_solutions_Fin (v : R) :
  0 <= v -> v * Cb < Va * Ca ->
  pre_solutions Va Ca Cb Ka hw (Fin v)
  = Returns [Fin (root1 1 (coef_b Va Cb Ka hw v) (coef_c Va Ca Cb Ka hw v));
             Fin (root2 1 (coef_b Va Cb Ka hw v) (coef_c Va Ca Cb Ka hw v))].
Proof.
  intros Hv H. unfold pre_solutions.
  rewrite init_baseConc_Fin, init_acidConc_Fin by assumption.
  cbn [mul add sub neg].
  replace (baseConc Va Cb v * hw + - (acidConc Va Ca Cb v * Ka))
    with (coef_c Va Ca Cb Ka hw v)
    by (unfold coef_c; ring).
  fold (coef_b Va Cb Ka hw v).
  apply quad_solve_Fin; [lra | apply discriminant_nonneg; assumption].
Qed.

Lemma preH3Oconc_Fin (v : R) :
  0 <= v -> v * Cb < Va * Ca ->
  preH3Oconc Va Ca Cb Ka hw (Fin v) = Returns (Fin (hydronium Va Ca Cb Ka hw v)).
Proof.
  intros Hv H. unfold preH3Oconc. rewrite pre_solutions_Fin by assumption.
  reflexivity.
Qed.

Lemma pre_pH_at_Fin (v : R) :
  0 <= v -> v * Cb < Va * Ca ->
  pre_pH_at Va Ca Cb Ka hw (Fin v)
  = Returns (- np_log10 (Fin (hydronium Va Ca Cb Ka hw v)))%f64.
Proof.
  intros Hv H. unfold pre_pH_at. rewrite preH3Oconc_Fin by assumption.
  reflexivity.
Qed.

End Buffer.

(** ** Signs of the roots of [x^2 + b x + c] *)

Section MonicRoots.

Variables b c : R.

Lemma sqrt_discriminant_gt :
  c < 0 -> Rabs b < sqrt (discriminant 1 b c).
Proof.
  intros Hc. rewrite <- sqrt_Rsqr_abs.
  apply sqrt_lt_1_alt. unfold discriminant, Rsqr. split; [| lra].
  pose proof (Rle_0_sqr b) as H. unfold Rsqr in H. exact H.
Qed.

Lemma sqrt_discriminant_lt :
  0 < b -> 0 < c -> 0 <= discriminant 1 b c -> sqrt (discriminant 1 b c) < b.
Proof.
  intros Hb Hc HD.
  rewrite <- (sqrt_square b) at 2 by lra.
  apply sqrt_lt_1_alt. unfold discriminant in *. lra.
Qed.

Lemma root1_pos : c < 0 -> 0 < root1 1 b c.
Proof.
  intros Hc. pose proof (sqrt_discriminant_gt Hc) as H.
  unfold root1. apply Rabs_def2 in H. lra.
Qed.

Lemma root2_neg : c < 0 -> root2 1 b c < 0.
Proof.
  intros Hc. pose proof (sqrt_discriminant_gt Hc) as H.
  unfold root2. apply Rabs_def2 in H. lra.
Qed.

Lemma root1_neg :
  0 < b -> 0 < c -> 0 <= discriminant 1 b c -> root1 1 b c < 0.
Proof.
  intros Hb Hc HD. pose proof (sqrt_discriminant_lt Hb Hc HD) as H.
  unfold root1. lra.
Qed.

Lemma monic_factor (x : R) :
  0 <= discriminant 1 b c ->
  x * x + b * x + c = (x - root1 1 b c) * (x - root2 1 b c).
Proof.
  intros HD. pose proof (sqrt_discriminant_sqr 1 b c HD) as Hs.
  unfold root1, root2. set (s := sqrt (discriminant 1 b c)) in *.
  replace ((x - (- b + s) / (2 * 1)) * (x - (- b - s) / (2 * 1)))
    with (x * x + b * x + (b * b - s * s) / 4) by field.
  rewrite Hs. field.
Qed.

(** A positive [x] lies right of the larger root exactly when the quadratic is
    positive at [x]. *)
Lemma above_root1 (x : R) :
  c < 0 -> 0 < x -> 0 < x * x + b * x + c -> root1 1 b c < x.
Proof.
  intros Hc Hx Hf.
  assert (HD : 0 <= discriminant 1 b c).
  { unfold discriminant. pose proof (Rle_0_sqr b) as H. unfold Rsqr in H. lra. }
  rewrite (monic_factor x HD) in Hf.
  pose proof (root2_neg Hc) as H2.
  destruct (Rlt_dec (root1 1 b c) x) as [H | H]; [exact H | exfalso].
  assert (H1 : x - root1 1 b c <= 0) by lra.
  assert (H3 : 0 < x - root2 1 b c) by lra.
  assert (H4 : (x - root1 1 b c) * (x - root2 1 b c) <= 0).
  { rewrite <- (Rmult_0_l (x - root2 1 b c)). apply Rmult_le_compat_r; lra. }
  lra.
Qed.

Lemma below_root1 (x : R) :
  c < 0 -> 0 < x -> x * x + b * x + c < 0 -> x < root1 1 b c.
Proof.
  intros Hc Hx Hf.
  assert (HD : 0 <= discriminant 1 b c).
  { unfold discriminant. pose proof (Rle_0_sqr b) as H. unfold Rsqr in H. lra. }
  rewrite (monic_factor x HD) in Hf.
  pose proof (root2_neg Hc) as H2.
  destruct (Rlt_dec x (root1 1 b c)) as [H | H]; [exact H | exfalso].
  assert (H1 : 0 <= x - root1 1 b c) by lra.
  assert (H3 : 0 <= x - root2 1 b c) by lra.
  pose proof (Rmult_le_pos _ _ H1 H3). lra.
Qed.

End MonicRoots.

(** ** C1: what the buffer model computes *)


Lemma notebook_equivalence :
  equivalence Notebook5.acid_VolI Notebook5.acid_ConI Notebook5.base_Con
  = Returns notebook_point.
Proof. apply equivalence_nonzero. unfold Notebook5.base_Con. lra. Qed.



(** ** The discriminant of cell 5 in exact arithmetic *)

(** In exact arithmetic, for every [v] in [[0, V_half)], positive [V_a],
    [C_a], [C_b], [K_a] and a water term [hw >= 0]: the constant coefficient
    satisfies [c <= A hw]; [b^2 - 4 A hw >= 0] and hence [b^2 - 4ac >= 0].
    In binary64 the computed discriminant can be negative all the same: see
    the binary64 properties of cell 5 at the end. *)
Lemma pre_discriminant_nonneg_exact (Va Ca Cb Ka hw v : R) (e : EquivalencePoint) :
  0 < Va -> 0 < Ca -> 0 < Cb -> 0 < Ka -> 0 <= hw ->
  equivalence Va Ca Cb = Returns e ->
  0 <= v < half_eq_pt e ->
  let A := (v * Cb) / (v + Va) in
  let HA := (Ca * Va - v * Cb) / (v + Va) in
  let b := A + Ka + hw in
  let c := A * hw - HA * Ka in
  c <= A * hw
  /\ 0 <= b ^ 2 - 4 * (A * hw)
  /\ 0 <= b ^ 2 - 4 * 1 * c
  /\ (square (init_baseConc Va Cb (Fin v) + Fin Ka + Fin hw)
      - Fin 4 * Fin 1
        * (init_baseConc Va Cb (Fin v) * Fin hw
           - init_acidConc Va Ca Cb (Fin v) * Fin Ka))%f64
     = Fin (b ^ 2 - 4 * 1 * c)
  /\ exists r1 r2 : R,
       pre_solutions Va Ca Cb Ka hw (Fin v) = Returns [Fin r1; Fin r2].
Proof.
  intros HVa HCa HCb HKa Hhw He [Hv0 Hv1] A HA b c.
  rewrite (equivalence_half Va Ca Cb e HCb He) in Hv1.
  assert (Hlt : v * Cb < Va * Ca).
  { pose proof (half_scaled Va Ca Cb HCb v Hv1). nra. }
  change A with (baseConc Va Cb v) in *.
  change HA with (acidConc Va Ca Cb v) in *.
  change b with (coef_b Va Cb Ka hw v) in *.
  change c with (coef_c Va Ca Cb Ka hw v) in *.
  clear A HA b c.
  pose proof (coef_c_le Va Ca Cb Ka hw HVa HKa v Hv0 Hlt) as Hc.
  pose proof (discriminant_lower Va Cb Ka hw HVa HCb HKa Hhw v Hv0) as Hlow.
  split; [exact Hc |].
  split; [lra |].
  split; [lra |].
  split.
  - rewrite init_baseConc_Fin, init_acidConc_Fin by assumption.
    unfold square. cbn [mul add sub neg]. fold (coef_b Va Cb Ka hw v).
    f_equal. unfold coef_c. ring.
  - eexists _, _. apply pre_solutions_Fin; assumption.
Qed.

(** ** A negative discriminant in exact arithmetic *)

(** [quad_solve] has no [raise]; on numpy float64 values, as in cell 5, it
    returns on every input. *)
Lemma quad_solve_returns (a b c : float64) : succeeds (quad_solve a b c).
Proof. unfold quad_solve, ret. eexists. reflexivity. Qed.

(** In exact arithmetic a negative discriminant gives [[nan, nan]].  For the
    discriminant as the program computes it, see the binary64 properties of
    cell 4 at the end. *)
Lemma quad_solve_negative_discriminant_exact (a b c : R) :
  b ^ 2 - 4 * a * c < 0 ->
  quad_solve (Fin a) (Fin b) (Fin c) = Returns [NaN; NaN].
Proof.
  intros HD. unfold quad_solve, ret, square. cbn [mul sub add neg].
  rewrite np_sqrt_negative by lra. reflexivity.
Qed.

(** ** C7: when the equivalence geometry fails *)

(** C7, as the code behaves.  Cell 2 validates nothing: it fails if and only if
    the titrant concentration [C_b] is zero, with Python's
    [ZeroDivisionError] from [acid_MolI / base_Con]; for positive inputs it
    succeeds. *)
Theorem equivalence_raises_iff (Va Ca Cb : R) :
  (raises (equivalence Va Ca Cb) <-> Cb = 0)
  /\ (equivalence Va Ca Cb = Raises ZeroDivisionError <-> Cb = 0)
  /\ (0 < Va -> 0 < Ca -> 0 < Cb -> succeeds (equivalence Va Ca Cb)).
Proof.
  assert (Hzero : Cb = 0 -> equivalence Va Ca Cb = Raises ZeroDivisionError).
  { intros ->. unfold equivalence, truediv.
    destruct (Req_dec_T 0 0) as [_ | H]; [reflexivity | contradiction H; reflexivity]. }
  assert (Hnz : Cb <> 0 -> succeeds (equivalence Va Ca Cb)).
  { intros H. rewrite equivalence_nonzero by assumption. eexists. reflexivity. }
  split; [| split].
  - split.
    + intros [x Hx]. destruct (Req_dec_T Cb 0) as [E | N]; [exact E |].
      destruct (Hnz N) as [r Hr]. rewrite Hr in Hx. discriminate Hx.
    + intros E. exists ZeroDivisionError. apply Hzero, E.
  - split.
    + intros Hx. destruct (Req_dec_T Cb 0) as [E | N]; [exact E |].
      destruct (Hnz N) as [r Hr]. rewrite Hr in Hx. discriminate Hx.
    + exact Hzero.
  - intros _ _ HCb. apply Hnz. lra.
Qed.

Lemma equivalence_raises_iff_witness :
  succeeds (equivalence Notebook5.acid_VolI Notebook5.acid_ConI Notebook5.base_Con).
Proof.
  apply (equivalence_raises_iff Notebook5.acid_VolI Notebook5.acid_ConI
           Notebook5.base_Con).
  - unfold Notebook5.acid_VolI. lra.
  - unfold Notebook5.acid_ConI. lra.
  - unfold Notebook5.base_Con. lra.
Defined.

(** C7, as the specification states it, fails: a negative analyte volume is an
    input [<= 0], and cell 2 returns a (negative) equivalence volume for it
    without any error. *)
Lemma equivalence_negative_volume_succeeds :
  -1 <= 0
  /\ equivalence (-1) 1 1
     = Returns {| acid_MolI := -1 * 1; eq_pt := -1 * 1 / 1; half_eq_pt := -1 * 1 / 1 / 2 |}
  /\ ~ raises (equivalence (-1) 1 1).
Proof.
  assert (E : equivalence (-1) 1 1
              = Returns {| acid_MolI := -1 * 1; eq_pt := -1 * 1 / 1;
                           half_eq_pt := -1 * 1 / 1 / 2 |})
    by (apply equivalence_nonzero; lra).
  split; [lra |]. split; [exact E |].
  intros [x Hx]. rewrite E in Hx. discriminate Hx.
Qed.

(** ** C5: the equivalence geometry and its reference values *)

Lemma within_rel_intro (x ref rel : R) :
  0 < ref -> ref - rel * ref <= x <= ref + rel * ref -> within_rel x ref rel.
Proof.
  intros Href H. unfold within_rel. rewrite (Rabs_pos_eq ref) by lra.
  apply Rabs_le. lra.
Qed.

Lemma within_rel_elim (x ref rel : R) :
  0 < ref -> within_rel x ref rel -> ref - rel * ref <= x <= ref + rel * ref.
Proof.
  intros Href H. unfold within_rel in H. rewrite (Rabs_pos_eq ref) in H by lra.
  pose proof (Rle_abs (x - ref)) as H1.
  pose proof (Rle_abs (- (x - ref))) as H2. rewrite Rabs_Ropp in H2.
  lra.
Qed.

(** C5, as the code behaves.  Cell 2 computes [initial_moles = V_a C_a],
    [V_eq = initial_moles / C_b] and [V_half = V_eq / 2], with
    [0 < V_half < V_eq] for positive inputs.  For [V_a = 0.0513],
    [C_a = 0.131], [C_b = 0.0953], [initial_moles] is within relative tolerance
    [1e-3] of [0.00672] and [V_eq] of [0.0705]; [V_half] is within [1.2e-3] of
    [0.0353], the value rounded to three significant digits that the notebook
    prints. *)
Theorem equivalence_values :
  (forall Va Ca Cb : R,
      0 < Va -> 0 < Ca -> 0 < Cb ->
      exists e : EquivalencePoint,
        equivalence Va Ca Cb = Returns e
        /\ acid_MolI e = Va * Ca
        /\ eq_pt e = acid_MolI e / Cb
        /\ half_eq_pt e = eq_pt e / 2
        /\ 0 < half_eq_pt e < eq_pt e)
  /\ exists e : EquivalencePoint,
       equivalence 0.0513 0.131 0.0953 = Returns e
       /\ within_rel (acid_MolI e) 0.00672 1E-3
       /\ within_rel (eq_pt e) 0.0705 1E-3
       /\ within_rel (half_eq_pt e) 0.0353 1.2E-3
       /\ Rabs (half_eq_pt e - 0.0353) <= 0.00005.
Proof.
  split.
  - intros Va Ca Cb HVa HCa HCb.
    eexists. split; [apply equivalence_nonzero; lra |].
    cbn [acid_MolI eq_pt half_eq_pt].
    assert (Hm : 0 < Va * Ca) by (apply Rmult_lt_0_compat; assumption).
    assert (Heq : 0 < Va * Ca / Cb).
    { unfold Rdiv. apply Rmult_lt_0_compat; [assumption |].
      apply Rinv_0_lt_compat; assumption. }
    repeat split; lra.
  - eexists. split; [apply equivalence_nonzero; lra |].
    cbn [acid_MolI eq_pt half_eq_pt].
    split; [apply within_rel_intro; lra |].
    split; [apply within_rel_intro; lra |].
    split; [apply within_rel_intro; lra |].
    apply Rabs_le. lra.
Qed.

Lemma equivalence_values_witness :
  exists e : EquivalencePoint,
    equivalence 2 3 4 = Returns e /\ acid_MolI e = 2 * 3
    /\ eq_pt e = acid_MolI e / 4 /\ half_eq_pt e = eq_pt e / 2
    /\ 0 < half_eq_pt e < eq_pt e.
Proof. apply (proj1 equivalence_values 2 3 4); lra. Defined.

(** C5, as the specification states it, fails on [V_half]: the computed
    [0.0352586...] differs from [0.0353] by more than one part in a thousand,
    whether the tolerance is taken relative to the expected or to the computed
    value. *)
Lemma half_eq_pt_outside_tolerance :
  exists e : EquivalencePoint,
    equivalence 0.0513 0.131 0.0953 = Returns e
    /\ ~ within_rel (half_eq_pt e) 0.0353 1E-3
    /\ ~ within_rel 0.0353 (half_eq_pt e) 1E-3.
Proof.
  eexists. split; [apply equivalence_nonzero; lra |].
  cbn [half_eq_pt]. split.
  - intros H. apply within_rel_elim in H; lra.
  - intros H. apply within_rel_elim in H; lra.
Qed.

(** ** The sign of the selected root in exact arithmetic *)

(** In exact arithmetic, for every PRE_HALF volume sample
    ([0 <= v < V_half], positive [V_a], [C_a], [C_b], [K_a]) and a water term
    with [0 <= hw <= K_a] (the notebook has [hw = 1e-7] and
    [K_a = 1.76e-5]), the first root is positive and the second negative.
    In binary64 the positive root can come out as [0.0]: see the binary64
    properties of cell 5 at the end. *)
Lemma pre_root_positive_exact (Va Ca Cb Ka hw v : R) (e : EquivalencePoint) :
  0 < Va -> 0 < Ca -> 0 < Cb -> 0 < Ka -> 0 <= hw <= Ka ->
  equivalence Va Ca Cb = Returns e ->
  0 <= v < half_eq_pt e ->
  exists h h' : R,
    pre_solutions Va Ca Cb Ka hw (Fin v) = Returns [Fin h; Fin h']
    /\ preH3Oconc Va Ca Cb Ka hw (Fin v) = Returns (Fin h)
    /\ 0 < h
    /\ h' < 0.
Proof.
  intros HVa HCa HCb HKa [Hhw0 Hhw1] He [Hv0 Hv1].
  rewrite (equivalence_half Va Ca Cb e HCb He) in Hv1.
  assert (Hlt : v * Cb < Va * Ca).
  { pose proof (half_scaled Va Ca Cb HCb v Hv1). nra. }
  assert (Hc : coef_c Va Ca Cb Ka hw v < 0).
  { unfold coef_c.
    pose proof (baseConc_nonneg Va Cb HVa HCb v Hv0) as HA.
    pose proof (base_lt_acid Va Ca Cb HVa HCb v Hv0 Hv1) as HAHA.
    assert (H1 : baseConc Va Cb v * hw <= baseConc Va Cb v * Ka)
      by (apply Rmult_le_compat_l; assumption).
    assert (H2 : baseConc Va Cb v * Ka < acidConc Va Ca Cb v * Ka)
      by (apply Rmult_lt_compat_r; assumption).
    lra. }
  exists (root1 1 (coef_b Va Cb Ka hw v) (coef_c Va Ca Cb Ka hw v)),
         (root2 1 (coef_b Va Cb Ka hw v) (coef_c Va Ca Cb Ka hw v)).
  split; [apply pre_solutions_Fin; assumption |].
  split; [apply preH3Oconc_Fin; assumption |].
  split; [apply root1_pos | apply root2_neg]; exact Hc.
Qed.

(** ** C8: the volume grid *)

Section Grid.

Variables lo hi : R.
Variable n : Z.
Hypothesis lo_lt_hi : lo < hi.
Hypothesis n_pos : (1 <= n)%Z.

Lemma IZR_n_pos : 0 < IZR n.
Proof. apply IZR_lt. lia. Qed.

Lemma grid_step_pos : 0 < (hi + - lo) / IZR n.
Proof.
  unfold Rdiv. apply Rmult_lt_0_compat; [lra |].
  apply Rinv_0_lt_compat, IZR_n_pos.
Qed.

Lemma linspace_grid :
  linspace (Fin lo) (Fin hi) n = Returns (grid lo hi n, Fin ((hi + - lo) / IZR n)).
Proof.
  unfold linspace, ret.
  destruct (Z.ltb_spec n 0) as [H | _]; [lia |].
  destruct (Z.ltb_spec 0 n) as [_ | H]; [| lia].
  cbn [sub add neg].
  rewrite div_Fin by (pose proof IZR_n_pos; lra).
  unfold grid, arange. rewrite map_map. reflexivity.
Qed.

Lemma grid_length : length (grid lo hi n) = Z.to_nat n.
Proof. unfold grid. rewrite length_map, length_seq. reflexivity. Qed.

Lemma grid_nth (i : nat) :
  (i < Z.to_nat n)%nat -> nth_error (grid lo hi n) i = Some (Fin (grid_point lo hi n i)).
Proof.
  intros Hi. unfold grid. rewrite nth_error_map, nth_error_seq.
  destruct (Nat.ltb_spec i (Z.to_nat n)) as [_ | H]; [reflexivity | lia].
Qed.

Lemma grid_nth_inv (i : nat) (x : float64) :
  nth_error (grid lo hi n) i = Some x ->
  (i < Z.to_nat n)%nat /\ x = Fin (grid_point lo hi n i).
Proof.
  intros H.
  assert (Hi : (i < Z.to_nat n)%nat).
  { rewrite <- grid_length. apply nth_error_Some. rewrite H. discriminate. }
  split; [exact Hi |]. rewrite (grid_nth i Hi) in H. injection H as <-. reflexivity.
Qed.

Lemma grid_point_bounds (i : nat) :
  (i < Z.to_nat n)%nat -> lo <= grid_point lo hi n i < hi.
Proof.
  intros Hi. pose proof grid_step_pos as Hs. pose proof IZR_n_pos as Hn.
  pose proof (pos_INR i) as Hi0.
  assert (Hi1 : INR i + 1 <= IZR n).
  { rewrite <- S_INR, INR_IZR_INZ. apply IZR_le. lia. }
  unfold grid_point. set (s := (hi + - lo) / IZR n) in *.
  assert (Hn_s : IZR n * s = hi + - lo) by (unfold s; field; lra).
  assert (H0 : 0 <= INR i * s) by (apply Rmult_le_pos; lra).
  assert (H1 : (INR i + 1) * s <= IZR n * s) by (apply Rmult_le_compat_r; lra).
  lra.
Qed.

Lemma grid_point_succ (i : nat) :
  grid_point lo hi n (S i) - grid_point lo hi n i = (hi - lo) / IZR n.
Proof. unfold grid_point. rewrite S_INR. unfold Rminus. ring. Qed.

End Grid.

(** C8.  For every half-open interval [[lo, hi)] with [lo < hi] and every
    sample count [n >= 1], [np.linspace(lo, hi, num=n, endpoint=False)]
    produces exactly [n] values; the first is [lo], value [i] is
    [lo + i (hi - lo) / n], consecutive values differ by the constant step
    [(hi - lo) / n] and ascend, and every value is strictly below [hi]. *)
Theorem linspace_half_open (lo hi : R) (n : Z) :
  lo < hi -> (1 <= n)%Z ->
  exists (vols : list float64) (step : float64),
    linspace (Fin lo) (Fin hi) n = Returns (vols, step)
    /\ length vols = Z.to_nat n
    /\ nth_error vols 0 = Some (Fin lo)
    /\ (forall i : nat, (i < Z.to_nat n)%nat ->
          exists x : R,
            nth_error vols i = Some (Fin x)
            /\ x = lo + INR i * ((hi - lo) / IZR n)
            /\ lo <= x < hi)
    /\ (forall (i : nat) (x y : float64),
          nth_error vols i = Some x -> nth_error vols (S i) = Some y ->
          exists a b : R,
            x = Fin a /\ y = Fin b /\ b - a = (hi - lo) / IZR n /\ a < b).
Proof.
  intros Hlt Hn.
  exists (grid lo hi n), (Fin ((hi + - lo) / IZR n)).
  split; [apply linspace_grid; assumption |].
  split; [apply grid_length |].
  split.
  { rewrite grid_nth by lia. unfold grid_point. cbn [INR]. do 2 f_equal. lra. }
  split.
  - intros i Hi. exists (grid_point lo hi n i).
    split; [apply grid_nth; assumption |].
    split; [unfold grid_point, Rminus; ring |].
    apply grid_point_bounds; assumption.
  - intros i x y Hx Hy.
    apply grid_nth_inv in Hx as [_ ->]. apply grid_nth_inv in Hy as [_ ->].
    exists (grid_point lo hi n i), (grid_point lo hi n (S i)).
    split; [reflexivity |]. split; [reflexivity |].
    pose proof (grid_point_succ lo hi n i) as Hd.
    pose proof (grid_step_pos lo hi n Hlt Hn) as Hs.
    split; [exact Hd |]. unfold Rminus in *. lra.
Qed.

Lemma linspace_half_open_witness :
  exists (vols : list float64) (step : float64),
    linspace (Fin 0) (Fin 1) 4 = Returns (vols, step)
    /\ length vols = Z.to_nat 4
    /\ nth_error vols 0 = Some (Fin 0).
Proof.
  destruct (linspace_half_open 0 1 4) as (vols & step & H1 & H2 & H3 & _).
  - lra.
  - lia.
  - exists vols, step. repeat split; assumption.
Defined.

(** ** Cell 3 on a positive equivalence geometry *)

Lemma volumes_grids (n : Z) (e : EquivalencePoint) :
  0 < half_eq_pt e < eq_pt e -> (1 <= n)%Z ->
  volumes n e
  = Returns {| PreHalfEqVols := grid 0 (half_eq_pt e) n;
               VolStep := Fin ((half_eq_pt e + - 0) / IZR n);
               PostHalfEqVols := grid (half_eq_pt e) (eq_pt e) n;
               VolStep2 := Fin ((eq_pt e + - half_eq_pt e) / IZR n) |}.
Proof.
  intros [H0 H1] Hn. unfold volumes.
  rewrite !linspace_grid by (lra || lia). reflexivity.
Qed.

(** ** Monotonicity of the buffer model *)

Lemma div_lt_cross (x1 d1 x2 d2 : R) :
  0 < d1 -> 0 < d2 -> x1 * d2 < x2 * d1 -> x1 / d1 < x2 / d2.
Proof.
  intros H1 H2 H.
  apply (Rmult_lt_reg_r (d1 * d2)); [apply Rmult_lt_0_compat; assumption |].
  replace (x1 / d1 * (d1 * d2)) with (x1 * d2) by (field; lra).
  replace (x2 / d2 * (d1 * d2)) with (x2 * d1) by (field; lra).
  exact H.
Qed.

Section Monotone.

Variables Va Ca Cb Ka hw : R.
Hypothesis Va_pos : 0 < Va.
Hypothesis Ca_pos : 0 < Ca.
Hypothesis Cb_pos : 0 < Cb.
Hypothesis Ka_pos : 0 < Ka.
Hypothesis hw_nonneg : 0 <= hw.
Hypothesis hw_le_Ka : hw <= Ka.

Local Abbreviation V_half := (Va * Ca / Cb / 2).
Local Abbreviation A := (baseConc Va Cb).
Local Abbreviation HA := (acidConc Va Ca Cb).
Local Abbreviation b := (coef_b Va Cb Ka hw).
Local Abbreviation c := (coef_c Va Ca Cb Ka hw).
Local Abbreviation h := (hydronium Va Ca Cb Ka hw).
Local Abbreviation pH := (pH_of Va Ca Cb Ka hw).

Lemma below_equivalence (v : R) : v < V_half -> v * Cb < Va * Ca.
Proof.
  intros Hv. pose proof (half_scaled Va Ca Cb Cb_pos v Hv).
  assert (0 < Va * Ca) by (apply Rmult_lt_0_compat; assumption). lra.
Qed.

Lemma coef_c_neg (v : R) : 0 <= v -> v < V_half -> c v < 0.
Proof.
  intros Hv0 Hv1. unfold coef_c.
  pose proof (baseConc_nonneg Va Cb Va_pos Cb_pos v Hv0) as HA0.
  pose proof (base_lt_acid Va Ca Cb Va_pos Cb_pos v Hv0 Hv1) as HAHA.
  assert (H1 : A v * hw <= A v * Ka) by (apply Rmult_le_compat_l; assumption).
  assert (H2 : A v * Ka < HA v * Ka) by (apply Rmult_lt_compat_r; assumption).
  lra.
Qed.

Lemma hydronium_pos (v : R) : 0 <= v -> v < V_half -> 0 < h v.
Proof. intros Hv0 Hv1. apply root1_pos, coef_c_neg; assumption. Qed.

Lemma hydronium_root (v : R) :
  0 <= v -> v < V_half -> h v * h v + b v * h v + c v = 0.
Proof.
  intros Hv0 Hv1.
  assert (HD : 0 <= discriminant 1 (b v) (c v)).
  { apply discriminant_nonneg; try assumption. apply below_equivalence, Hv1. }
  pose proof (root1_is_root 1 (b v) (c v) R1_neq_R0 HD) as H.
  unfold hydronium. lra.
Qed.

Lemma baseConc_increasing (v1 v2 : R) : 0 <= v1 -> v1 < v2 -> A v1 < A v2.
Proof.
  intros H1 H2. unfold baseConc. apply div_lt_cross; try lra.
  assert (H : v1 * (Cb * Va) < v2 * (Cb * Va)).
  { apply Rmult_lt_compat_r; [apply Rmult_lt_0_compat |]; assumption. }
  lra.
Qed.

Lemma acidConc_decreasing (v1 v2 : R) : 0 <= v1 -> v1 < v2 -> HA v2 < HA v1.
Proof.
  intros H1 H2. unfold acidConc. apply div_lt_cross; try lra.
  assert (Hm : 0 < Ca * Va + Cb * Va).
  { assert (0 < Ca * Va) by (apply Rmult_lt_0_compat; assumption).
    assert (0 < Cb * Va) by (apply Rmult_lt_0_compat; assumption). lra. }
  assert (H : v1 * (Ca * Va + Cb * Va) < v2 * (Ca * Va + Cb * Va))
    by (apply Rmult_lt_compat_r; assumption).
  lra.
Qed.

(** Adding base lowers the hydronium concentration the model selects. *)
Lemma hydronium_decreasing (v1 v2 : R) :
  0 <= v1 -> v1 < v2 -> v2 < V_half -> h v2 < h v1.
Proof.
  intros H0 H12 H2.
  assert (H1 : v1 < V_half) by lra.
  assert (H0' : 0 <= v2) by lra.
  pose proof (hydronium_pos v1 H0 H1) as Hh1.
  pose proof (hydronium_root v1 H0 H1) as Hr1.
  pose proof (baseConc_increasing v1 v2 H0 H12) as HA12.
  pose proof (acidConc_decreasing v1 v2 H0 H12) as HHA12.
  unfold hydronium at 1.
  apply above_root1; [apply coef_c_neg; assumption | exact Hh1 |].
  assert (E : h v1 * h v1 + b v2 * h v1 + c v2
              = (h v1 * h v1 + b v1 * h v1 + c v1)
                + (A v2 - A v1) * (h v1 + hw) + (HA v1 - HA v2) * Ka)
    by (unfold coef_b, coef_c; ring).
  rewrite E, Hr1.
  assert (0 < (A v2 - A v1) * (h v1 + hw)) by (apply Rmult_lt_0_compat; lra).
  assert (0 < (HA v1 - HA v2) * Ka) by (apply Rmult_lt_0_compat; lra).
  lra.
Qed.

Lemma pH_of_increasing (v1 v2 : R) :
  0 <= v1 -> v1 < v2 -> v2 < V_half -> pH v1 < pH v2.
Proof.
  intros H0 H12 H2.
  pose proof (hydronium_decreasing v1 v2 H0 H12 H2) as Hh.
  assert (Hp : 0 < h v2) by (apply hydronium_pos; lra).
  pose proof (ln_increasing (h v2) (h v1) Hp Hh) as Hln.
  pose proof ln_10_pos as H10.
  unfold pH_of, log10. apply Ropp_lt_contravar.
  unfold Rdiv. apply Rmult_lt_compat_r; [apply Rinv_0_lt_compat; exact H10 | exact Hln].
Qed.

(** Cell 5 returns a finite pH on every PRE_HALF sample. *)
Lemma pre_pH_at_value (v : R) :
  0 <= v -> v < V_half ->
  pre_pH_at Va Ca Cb Ka hw (Fin v) = Returns (Fin (pH v)).
Proof.
  intros Hv0 Hv1.
  rewrite pre_pH_at_Fin; try assumption; [| apply below_equivalence, Hv1].
  rewrite np_log10_Fin by (apply hydronium_pos; assumption).
  reflexivity.
Qed.

End Monotone.

(** ** The pH sequence in exact arithmetic *)

Lemma mapM_Returns {A B : Type} (f : A -> py B) (g : A -> B) (l : list A) :
  (forall a, In a l -> f a = Returns (g a)) -> mapM f l = Returns (map g l).
Proof.
  induction l as [| a l IH]; intros H; cbn.
  - reflexivity.
  - rewrite (H a) by (left; reflexivity). cbn.
    rewrite IH by (intros a' Ha'; apply H; right; exact Ha'). reflexivity.
Qed.

Section Curve.

Variables Va Ca Cb Ka hw : R.
Variable n : Z.
Hypothesis Va_pos : 0 < Va.
Hypothesis Ca_pos : 0 < Ca.
Hypothesis Cb_pos : 0 < Cb.
Hypothesis Ka_pos : 0 < Ka.
Hypothesis hw_nonneg : 0 <= hw.
Hypothesis hw_le_Ka : hw <= Ka.
Hypothesis n_pos : (1 <= n)%Z.

Local Abbreviation V_half := (Va * Ca / Cb / 2).
Local Abbreviation V_eq := (Va * Ca / Cb).

Lemma V_eq_pos : 0 < V_eq.
Proof.
  unfold Rdiv. apply Rmult_lt_0_compat; [apply Rmult_lt_0_compat; assumption |].
  apply Rinv_0_lt_compat. assumption.
Qed.

Lemma pre_pH_grid :
  pre_pH Va Ca Cb Ka hw (pre_vols Va Ca Cb n) = Returns (pre_pHs Va Ca Cb Ka hw n).
Proof.
  pose proof V_eq_pos as HVeq.
  unfold pre_pH, pre_vols, pre_pHs, grid.
  set (g := fun x : float64 =>
              match x with Fin v => Fin (pH_of Va Ca Cb Ka hw v) | _ => NaN end).
  rewrite (mapM_Returns _ g).
  - rewrite map_map. reflexivity.
  - intros a Ha. apply in_map_iff in Ha as (i & <- & Hi).
    apply in_seq in Hi.
    assert (Hb : 0 <= grid_point 0 V_half n i < V_half)
      by (apply grid_point_bounds; [lra | lia | lia]).
    cbn [g]. apply pre_pH_at_value; (assumption || lra).
Qed.

Lemma titration_value :
  titration Va Ca Cb n Ka hw = Returns (pre_vols Va Ca Cb n, pre_pHs Va Ca Cb Ka hw n).
Proof.
  pose proof V_eq_pos as HVeq.
  unfold titration. rewrite equivalence_nonzero by lra. cbn [bind].
  unfold volumes. cbn [half_eq_pt eq_pt].
  rewrite !linspace_grid by (lra || lia). cbn [bind ret fst PreHalfEqVols].
  fold (pre_vols Va Ca Cb n). rewrite pre_pH_grid. reflexivity.
Qed.

Lemma pre_pHs_nth (i : nat) (x : float64) :
  nth_error (pre_pHs Va Ca Cb Ka hw n) i = Some x ->
  (i < Z.to_nat n)%nat /\ x = Fin (pH_of Va Ca Cb Ka hw (grid_point 0 V_half n i)).
Proof.
  unfold pre_pHs. rewrite nth_error_map, nth_error_seq.
  destruct (Nat.ltb_spec i (Z.to_nat n)) as [Hi | Hi]; cbn; intros H.
  - injection H as <-. split; [exact Hi | reflexivity].
  - discriminate H.
Qed.

Lemma pre_pHs_increasing (i : nat) (x y : float64) :
  nth_error (pre_pHs Va Ca Cb Ka hw n) i = Some x ->
  nth_error (pre_pHs Va Ca Cb Ka hw n) (S i) = Some y ->
  exists p q : R, x = Fin p /\ y = Fin q /\ p < q.
Proof.
  intros Hx Hy. pose proof V_eq_pos as HVeq.
  apply pre_pHs_nth in Hx as [Hi ->]. apply pre_pHs_nth in Hy as [HSi ->].
  eexists _, _. split; [reflexivity |]. split; [reflexivity |].
  assert (Hb : 0 <= grid_point 0 V_half n i < V_half)
    by (apply grid_point_bounds; [lra | lia | lia]).
  assert (Hb' : 0 <= grid_point 0 V_half n (S i) < V_half)
    by (apply grid_point_bounds; [lra | lia | lia]).
  assert (Hstep : grid_point 0 V_half n i < grid_point 0 V_half n (S i)).
  { pose proof (grid_point_succ 0 V_half n i) as Hd.
    assert (Hs : 0 < (V_half + - 0) / IZR n) by (apply grid_step_pos; [lra | lia]).
    unfold Rminus in Hd. lra. }
  apply pH_of_increasing; (assumption || lra).
Qed.

End Curve.

(** In exact arithmetic, for positive [V_a], [C_a], [C_b], [K_a], a water
    term [0 <= hw <= K_a] and [n >= 1] samples, the pH values of the buffer
    model over the ascending PRE_HALF grid are finite and strictly increasing.
    In binary64 the order can be lost: see the binary64 properties of the
    whole run at the end. *)
Lemma pre_pH_nondecreasing_exact (Va Ca Cb Ka hw : R) (n : Z) :
  0 < Va -> 0 < Ca -> 0 < Cb -> 0 < Ka -> 0 <= hw <= Ka -> (1 <= n)%Z ->
  exists vols pHs : list float64,
    titration Va Ca Cb n Ka hw = Returns (vols, pHs)
    /\ length vols = Z.to_nat n
    /\ length pHs = Z.to_nat n
    /\ forall (i : nat) (x y : float64),
         nth_error pHs i = Some x -> nth_error pHs (S i) = Some y ->
         f_le x y /\ f_lt x y /\ is_finite x = true /\ is_finite y = true.
Proof.
  intros HVa HCa HCb HKa [Hhw0 Hhw1] Hn.
  exists (pre_vols Va Ca Cb n), (pre_pHs Va Ca Cb Ka hw n).
  split; [apply titration_value; assumption |].
  split; [apply grid_length |].
  split; [unfold pre_pHs; rewrite length_map, length_seq; reflexivity |].
  intros i x y Hx Hy.
  destruct (pre_pHs_increasing Va Ca Cb Ka hw n HVa HCa HCb HKa Hhw0 Hhw1 Hn i x y Hx Hy)
    as (p & q & -> & -> & Hpq).
  cbn. repeat split; lra.
Qed.

(** ** Decimal logarithms: bounds from integer powers *)

Lemma ln_le (x y : R) : 0 < x -> x <= y -> ln x <= ln y.
Proof.
  intros Hx [H | ->]; [left; apply ln_increasing; assumption | right; reflexivity].
Qed.

Lemma log10_le (x y : R) : 0 < x -> x <= y -> log10 x <= log10 y.
Proof.
  intros Hx Hxy. unfold log10, Rdiv. apply Rmult_le_compat_r.
  - left. apply Rinv_0_lt_compat, ln_10_pos.
  - apply ln_le; assumption.
Qed.

Lemma log10_lt (x y : R) : 0 < x -> x < y -> log10 x < log10 y.
Proof.
  intros Hx Hxy. unfold log10, Rdiv. apply Rmult_lt_compat_r.
  - apply Rinv_0_lt_compat, ln_10_pos.
  - apply ln_increasing; assumption.
Qed.

Lemma log10_mult (x y : R) : 0 < x -> 0 < y -> log10 (x * y) = log10 x + log10 y.
Proof.
  intros Hx Hy. unfold log10. rewrite ln_mult by assumption.
  pose proof ln_10_pos. field. lra.
Qed.

Lemma log10_pow (x : R) (k : nat) : 0 < x -> log10 (x ^ k) = INR k * log10 x.
Proof.
  intros Hx. unfold log10. rewrite ln_pow by assumption.
  pose proof ln_10_pos. field. lra.
Qed.

Lemma log10_pow10 (m : nat) : log10 (10 ^ m) = INR m.
Proof.
  rewrite log10_pow by lra. unfold log10.
  pose proof ln_10_pos. field. lra.
Qed.

Lemma log10_div_pow10 (x : R) (m : nat) :
  0 < x -> log10 (x / 10 ^ m) = log10 x - INR m.
Proof.
  intros Hx.
  assert (H10 : 0 < 10 ^ m) by (apply pow_lt; lra).
  assert (E : x = x / 10 ^ m * 10 ^ m) by (field; lra).
  rewrite E at 2. rewrite log10_mult, log10_pow10.
  - ring.
  - unfold Rdiv. apply Rmult_lt_0_compat; [assumption | apply Rinv_0_lt_compat; assumption].
  - assumption.
Qed.

(** [10^m <= a^k] over the integers gives [m <= k log10 a], and likewise from
    above; the integer comparisons are decided by computation. *)
Lemma log10_IZR_lower (a : Z) (k m : nat) :
  (0 < a)%Z -> (10 ^ Z.of_nat m <= a ^ Z.of_nat k)%Z ->
  INR m <= INR k * log10 (IZR a).
Proof.
  intros Ha H. apply IZR_le in H. rewrite <- !pow_IZR in H.
  rewrite <- (log10_pow10 m), <- (log10_pow (IZR a) k) by (apply IZR_lt; assumption).
  apply log10_le; [apply pow_lt; lra | exact H].
Qed.

Lemma log10_IZR_upper (a : Z) (k m : nat) :
  (0 < a)%Z -> (a ^ Z.of_nat k <= 10 ^ Z.of_nat m)%Z ->
  INR k * log10 (IZR a) <= INR m.
Proof.
  intros Ha H. apply IZR_le in H. rewrite <- !pow_IZR in H.
  rewrite <- (log10_pow10 m), <- (log10_pow (IZR a) k) by (apply IZR_lt; assumption).
  apply log10_le; [apply pow_lt; apply IZR_lt; assumption | exact H].
Qed.

Lemma log10_176_bounds : 2.245 <= log10 176 <= 2.246.
Proof.
  assert (L : INR 2245 <= INR 1000 * log10 176).
  { apply log10_IZR_lower; [lia |]. vm_compute. discriminate. }
  assert (U : INR 1000 * log10 176 <= INR 2246).
  { apply log10_IZR_upper; [lia |]. vm_compute. discriminate. }
  rewrite !INR_IZR_INZ in L, U. simpl Z.of_nat in L, U. lra.
Qed.

Lemma log10_99_lower : 1.995 <= log10 99.
Proof.
  assert (L : INR 399 <= INR 200 * log10 99).
  { apply log10_IZR_lower; [lia |]. vm_compute. discriminate. }
  rewrite !INR_IZR_INZ in L. simpl Z.of_nat in L. lra.
Qed.

(** [pKa] of acetic acid, [-log10(1.76e-5)], is [4.754...]. *)
Lemma pKa_acetic_bounds : 4.754 <= - log10 1.76E-5 <= 4.755.
Proof.
  replace 1.76E-5 with (176 / 10 ^ 7) by lra.
  rewrite log10_div_pow10 by lra.
  pose proof log10_176_bounds. cbn [INR]. lra.
Qed.

(** ** C9: the pH near the half-equivalence point *)

Lemma continuity_pt_ln (x : R) : 0 < x -> continuity_pt ln x.
Proof.
  intros Hx. apply derivable_continuous_pt.
  exists (/ x). apply derivable_pt_lim_ln. exact Hx.
Qed.

Section HalfEquivalence.

Variables Va Ca Cb Ka hw : R.
Hypothesis Va_pos : 0 < Va.
Hypothesis Ca_pos : 0 < Ca.
Hypothesis Cb_pos : 0 < Cb.
Hypothesis Ka_pos : 0 < Ka.
Hypothesis hw_nonneg : 0 <= hw.
Hypothesis hw_lt_Ka : hw < Ka.

Local Abbreviation V_half := (Va * Ca / Cb / 2).
Local Abbreviation c := (coef_c Va Ca Cb Ka hw).
Local Abbreviation b := (coef_b Va Cb Ka hw).
Local Abbreviation pH := (pH_of Va Ca Cb Ka hw).

Lemma V_half_pos : 0 < V_half.
Proof.
  pose proof (V_eq_pos Va Ca Cb Va_pos Ca_pos Cb_pos). lra.
Qed.

Lemma coef_c_neg_at_half : c V_half < 0.
Proof.
  pose proof V_half_pos as Hh.
  assert (Hm : 0 < Va * Ca) by (apply Rmult_lt_0_compat; assumption).
  assert (E : V_half * Cb = Va * Ca / 2) by (field; lra).
  assert (HHA : 0 < acidConc Va Ca Cb V_half).
  { apply acidConc_pos; try assumption; lra. }
  assert (EA : baseConc Va Cb V_half = acidConc Va Ca Cb V_half).
  { unfold baseConc, acidConc. rewrite E. f_equal. lra. }
  unfold coef_c. rewrite EA.
  assert (acidConc Va Ca Cb V_half * hw < acidConc Va Ca Cb V_half * Ka)
    by (apply Rmult_lt_compat_l; assumption).
  lra.
Qed.

(** At [V_half] the two concentrations are equal, and [K_a] lies right of the
    positive root: the quadratic is [2 K_a^2 + hw K_a + [HA] hw > 0] there. *)
Lemma hydronium_half_lt_Ka : hydronium Va Ca Cb Ka hw V_half < Ka.
Proof.
  pose proof V_half_pos as Hh.
  assert (Hm : 0 < Va * Ca) by (apply Rmult_lt_0_compat; assumption).
  assert (E : V_half * Cb = Va * Ca / 2) by (field; lra).
  assert (HHA : 0 < acidConc Va Ca Cb V_half).
  { apply acidConc_pos; try assumption; lra. }
  assert (EA : baseConc Va Cb V_half = acidConc Va Ca Cb V_half).
  { unfold baseConc, acidConc. rewrite E. f_equal. lra. }
  unfold hydronium. apply above_root1; [exact coef_c_neg_at_half | exact Ka_pos |].
  unfold coef_b, coef_c. rewrite EA.
  set (s := acidConc Va Ca Cb V_half) in *.
  assert (H1 : 0 < Ka * Ka) by (apply Rmult_lt_0_compat; assumption).
  assert (H2 : 0 <= hw * Ka) by (apply Rmult_le_pos; lra).
  assert (H3 : 0 <= s * hw) by (apply Rmult_le_pos; lra).
  lra.
Qed.

Lemma pH_of_half_gt_pKa : - log10 Ka < pH V_half.
Proof.
  unfold pH_of. apply Ropp_lt_contravar. apply log10_lt.
  - unfold hydronium. apply root1_pos. exact coef_c_neg_at_half.
  - exact hydronium_half_lt_Ka.
Qed.

Lemma pH_of_continuous (x0 : R) :
  0 <= x0 -> c x0 < 0 -> continuity_pt pH x0.
Proof.
  intros Hx Hc.
  assert (HD : 0 < discriminant 1 (b x0) (c x0)).
  { unfold discriminant. pose proof (Rle_0_sqr (b x0)) as H. unfold Rsqr in H. lra. }
  pose proof (root1_pos (b x0) (c x0) Hc) as Hh.
  pose proof ln_10_pos as H10.
  unfold pH_of, log10, hydronium, root1, discriminant, coef_b, coef_c, baseConc,
    acidConc in *.
  reg; try lra.
  apply continuity_pt_ln. exact Hh.
Qed.

End HalfEquivalence.

Lemma pre_pH_tends_to_value (Va Ca Cb Ka hw : R) :
  0 < Va -> 0 < Ca -> 0 < Cb -> 0 < Ka -> 0 <= hw -> hw < Ka ->
  tends_to_from_below (pre_pH_at Va Ca Cb Ka hw) (Va * Ca / Cb / 2)
    (pH_of Va Ca Cb Ka hw (Va * Ca / Cb / 2)).
Proof.
  intros HVa HCa HCb HKa Hhw0 Hhw1 eps Heps.
  pose proof (V_half_pos Va Ca Cb HVa HCa HCb) as Hh.
  assert (Hc : coef_c Va Ca Cb Ka hw (Va * Ca / Cb / 2) < 0)
    by (apply coef_c_neg_at_half; assumption).
  assert (Hcont : continuity_pt (pH_of Va Ca Cb Ka hw) (Va * Ca / Cb / 2))
    by (apply pH_of_continuous; (assumption || lra)).
  destruct (Hcont eps Heps) as (alp & Halp & Hlim).
  exists (Rmin alp (Va * Ca / Cb / 2)).
  split; [apply Rmin_glb_lt; assumption |].
  intros v [Hv0 Hv1].
  pose proof (Rmin_l alp (Va * Ca / Cb / 2)) as Hl.
  pose proof (Rmin_r alp (Va * Ca / Cb / 2)) as Hr.
  exists (pH_of Va Ca Cb Ka hw v).
  split; [apply pre_pH_at_value; (assumption || lra) |].
  apply Hlim. split.
  - split; [exact I | lra].
  - cbn. unfold R_dist. apply Rabs_def1; lra.
Qed.

Lemma tends_to_from_below_unique (f : float64 -> py float64) (x0 L1 L2 : R) :
  tends_to_from_below f x0 L1 -> tends_to_from_below f x0 L2 -> L1 = L2.
Proof.
  intros H1 H2.
  destruct (Req_dec_T L1 L2) as [E | N]; [exact E | exfalso].
  assert (Heps : 0 < Rabs (L1 - L2) / 2).
  { assert (0 < Rabs (L1 - L2)) by (apply Rabs_pos_lt; lra). lra. }
  destruct (H1 _ Heps) as (d1 & Hd1 & K1).
  destruct (H2 _ Heps) as (d2 & Hd2 & K2).
  set (v := x0 - Rmin d1 d2 / 2).
  pose proof (Rmin_l d1 d2) as Hl. pose proof (Rmin_r d1 d2) as Hr.
  assert (Hm : 0 < Rmin d1 d2) by (apply Rmin_glb_lt; assumption).
  destruct (K1 v) as (p1 & E1 & B1); [unfold v; lra |].
  destruct (K2 v) as (p2 & E2 & B2); [unfold v; lra |].
  rewrite E1 in E2. injection E2 as <-.
  pose proof (Rabs_triang (L1 - p1) (p1 - L2)) as T.
  replace (L1 - p1 + (p1 - L2)) with (L1 - L2) in T by ring.
  rewrite (Rabs_minus_sym L1 p1) in T. lra.
Qed.

Lemma notebook_hydronium_half_bounds :
  0.99 * Notebook5.equilibConst < notebook_hydronium notebook_V_half
  /\ notebook_hydronium notebook_V_half < Notebook5.equilibConst.
Proof.
  unfold notebook_hydronium, hydronium. split.
  - apply below_root1; notebook_constants; lra.
  - apply above_root1; notebook_constants; lra.
Qed.

Lemma log10_99_percent : -0.005 <= log10 0.99.
Proof.
  replace 0.99 with (99 / 10 ^ 2) by lra.
  rewrite log10_div_pow10 by lra.
  pose proof log10_99_lower. cbn [INR]. lra.
Qed.

Lemma notebook_pH_half_bounds :
  - log10 Notebook5.equilibConst < notebook_pH notebook_V_half
  /\ notebook_pH notebook_V_half < - log10 Notebook5.equilibConst + 0.005.
Proof.
  destruct notebook_hydronium_half_bounds as [Hlo Hhi].
  assert (HKa : 0 < Notebook5.equilibConst) by (unfold Notebook5.equilibConst; lra).
  assert (Hh : 0 < notebook_hydronium notebook_V_half) by lra.
  unfold notebook_pH, pH_of. fold (notebook_hydronium notebook_V_half).
  split.
  - apply Ropp_lt_contravar. apply log10_lt; assumption.
  - assert (H : log10 (0.99 * Notebook5.equilibConst)
                < log10 (notebook_hydronium notebook_V_half))
      by (apply log10_lt; lra).
    rewrite log10_mult in H by lra.
    pose proof log10_99_percent. lra.
Qed.

Lemma notebook_pre_pH_at_half :
  pre_pH_at Notebook5.acid_VolI Notebook5.acid_ConI Notebook5.base_Con
    Notebook5.equilibConst Notebook5.H3O_water (Fin notebook_V_half)
  = Returns (Fin (notebook_pH notebook_V_half)).
Proof.
  destruct notebook_hydronium_half_bounds as [Hlo _].
  rewrite pre_pH_at_Fin by (notebook_constants; lra).
  fold (notebook_hydronium notebook_V_half).
  rewrite np_log10_Fin by (unfold Notebook5.equilibConst in Hlo; lra).
  reflexivity.
Qed.

Lemma log10_90_percent : log10 0.9 <= -0.01.
Proof.
  replace 0.9 with (9 / 10 ^ 1) by lra.
  rewrite log10_div_pow10 by lra.
  assert (U : INR 100 * log10 9 <= INR 99).
  { apply log10_IZR_upper; [lia |]. vm_compute. discriminate. }
  rewrite !INR_IZR_INZ in U. simpl Z.of_nat in U. cbn [INR]. lra.
Qed.

(** The closeness to [pKa] depends on the concentrations: for a dilute
    titration ([C_a = C_b = 1e-4], the notebook's [K_a] and water term) the
    pH of the buffer model at [v = V_half] is more than [0.01] above [pKa]. *)
Lemma dilute_pH_at_half_far_from_pKa :
  exists (e : EquivalencePoint) (p : R),
    equivalence 1 1E-4 1E-4 = Returns e
    /\ pre_pH_at 1 1E-4 1E-4 1.76E-5 1E-7 (Fin (half_eq_pt e)) = Returns (Fin p)
    /\ - log10 1.76E-5 + 0.01 < p.
Proof.
  eexists _, _. split; [apply equivalence_nonzero; lra |].
  cbn [half_eq_pt].
  set (v := 1 * 1E-4 / 1E-4 / 2).
  set (h := hydronium 1 1E-4 1E-4 1.76E-5 1E-7 v).
  assert (Hc : coef_c 1 1E-4 1E-4 1.76E-5 1E-7 v < 0)
    by (unfold v, coef_c, baseConc, acidConc; lra).
  assert (Hpos : 0 < h) by (apply root1_pos; exact Hc).
  assert (Hlt : h < 0.9 * 1.76E-5).
  { apply above_root1; [exact Hc | lra |].
    unfold v, coef_b, coef_c, baseConc, acidConc. lra. }
  split.
  - rewrite pre_pH_at_Fin by (unfold v; lra). fold h.
    rewrite np_log10_Fin by exact Hpos. reflexivity.
  - assert (H : log10 h < log10 (0.9 * 1.76E-5)) by (apply log10_lt; assumption).
    rewrite log10_mult in H by lra.
    pose proof log10_90_percent. subst h v. lra.
Qed.

(** C9, as the code behaves.  In exact arithmetic, for positive [V_a], [C_a],
    [C_b], [K_a] and a water term [0 <= hw < K_a]: as [v] approaches [V_half]
    from below, the pH of the buffer model tends to the model's own value at
    [V_half], [-log10] of the positive root of the quadratic there; that value
    is strictly above [pKa = -log10(K_a)], so the pH does not tend to [pKa].
    How far above depends on the concentrations.  For the notebook's constants
    ([K_a = 1.76e-5]) the pH at [v = V_half] lies strictly between [pKa] and
    [pKa + 0.01], and [pKa] is [4.754] to three decimals, so it is within
    [0.01] of [4.754]; for [C_a = C_b = 1e-4] it is more than [0.01] above
    [pKa]. *)
Theorem pre_pH_near_half_equivalence :
  (forall (Va Ca Cb Ka hw : R) (e : EquivalencePoint),
      0 < Va -> 0 < Ca -> 0 < Cb -> 0 < Ka -> 0 <= hw < Ka ->
      equivalence Va Ca Cb = Returns e ->
      tends_to_from_below (pre_pH_at Va Ca Cb Ka hw) (half_eq_pt e)
        (pH_of Va Ca Cb Ka hw (half_eq_pt e))
      /\ - log10 Ka < pH_of Va Ca Cb Ka hw (half_eq_pt e)
      /\ ~ tends_to_from_below (pre_pH_at Va Ca Cb Ka hw) (half_eq_pt e) (- log10 Ka))
  /\ (exists p : R,
        pre_pH_at Notebook5.acid_VolI Notebook5.acid_ConI Notebook5.base_Con
          Notebook5.equilibConst Notebook5.H3O_water (Fin (half_eq_pt notebook_point))
        = Returns (Fin p)
        /\ - log10 1.76E-5 < p < - log10 1.76E-5 + 0.01
        /\ 4.754 <= - log10 1.76E-5 <= 4.755
        /\ Rabs (p - 4.754) < 0.01)
  /\ (exists (e : EquivalencePoint) (p : R),
        equivalence 1 1E-4 1E-4 = Returns e
        /\ pre_pH_at 1 1E-4 1E-4 1.76E-5 1E-7 (Fin (half_eq_pt e)) = Returns (Fin p)
        /\ - log10 1.76E-5 + 0.01 < p).
Proof.
  split; [| split].
  - intros Va Ca Cb Ka hw e HVa HCa HCb HKa [Hhw0 Hhw1] He.
    rewrite (equivalence_half Va Ca Cb e HCb He).
    assert (L : tends_to_from_below (pre_pH_at Va Ca Cb Ka hw) (Va * Ca / Cb / 2)
                  (pH_of Va Ca Cb Ka hw (Va * Ca / Cb / 2)))
      by (apply pre_pH_tends_to_value; assumption).
    assert (G : - log10 Ka < pH_of Va Ca Cb Ka hw (Va * Ca / Cb / 2))
      by (apply pH_of_half_gt_pKa; assumption).
    split; [exact L |]. split; [exact G |].
    intros H. pose proof (tends_to_from_below_unique _ _ _ _ H L) as E. lra.
  - exists (notebook_pH notebook_V_half).
    pose proof notebook_pH_half_bounds as [Hlo Hhi].
    pose proof pKa_acetic_bounds as [Ha Hb].
    change Notebook5.equilibConst with 1.76E-5 in Hlo, Hhi.
    split; [exact notebook_pre_pH_at_half |].
    split; [lra |]. split; [lra |].
    apply Rabs_def1; lra.
  - exact dilute_pH_at_half_far_from_pKa.
Qed.

Lemma pre_pH_near_half_equivalence_witness :
  tends_to_from_below
    (pre_pH_at Notebook5.acid_VolI Notebook5.acid_ConI Notebook5.base_Con
       Notebook5.equilibConst Notebook5.H3O_water)
    (half_eq_pt notebook_point)
    (pH_of Notebook5.acid_VolI Notebook5.acid_ConI Notebook5.base_Con
       Notebook5.equilibConst Notebook5.H3O_water (half_eq_pt notebook_point))
  /\ - log10 Notebook5.equilibConst
     < pH_of Notebook5.acid_VolI Notebook5.acid_ConI Notebook5.base_Con
         Notebook5.equilibConst Notebook5.H3O_water (half_eq_pt notebook_point)
  /\ ~ tends_to_from_below
        (pre_pH_at Notebook5.acid_VolI Notebook5.acid_ConI Notebook5.base_Con
           Notebook5.equilibConst Notebook5.H3O_water)
        (half_eq_pt notebook_point)
        (- log10 Notebook5.equilibConst).
Proof.
  apply (proj1 pre_pH_near_half_equivalence).
  - unfold Notebook5.acid_VolI. lra.
  - unfold Notebook5.acid_ConI. lra.
  - unfold Notebook5.base_Con. lra.
  - unfold Notebook5.equilibConst. lra.
  - unfold Notebook5.H3O_water, Notebook5.equilibConst. lra.
  - exact notebook_equivalence.
Defined.

(** C9, as the specification states it, fails: for the notebook's constants the
    pH of the buffer model does not tend to [pKa = -log10(1.76e-5)] as [v]
    approaches [V_half] from below; it tends to a value strictly above it. *)
Lemma pre_pH_limit_is_not_pKa :
  ~ tends_to_from_below
      (pre_pH_at Notebook5.acid_VolI Notebook5.acid_ConI Notebook5.base_Con
         Notebook5.equilibConst Notebook5.H3O_water)
      (half_eq_pt notebook_point)
      (- log10 Notebook5.equilibConst).
Proof.
  intros H.
  assert (L : tends_to_from_below
                (pre_pH_at Notebook5.acid_VolI Notebook5.acid_ConI Notebook5.base_Con
                   Notebook5.equilibConst Notebook5.H3O_water)
                (half_eq_pt notebook_point) (notebook_pH notebook_V_half)).
  { apply pre_pH_tends_to_value; notebook_constants; lra. }
  pose proof (tends_to_from_below_unique _ _ _ _ H L) as E.
  pose proof notebook_pH_half_bounds as [Hlo _]. lra.
Qed.

(** ** The test of cell 4

    The notebook prints "The initial pH of this solution is 2.82". *)

Lemma log10_148_154 : 2.17 <= log10 148 /\ log10 154 <= 2.19.
Proof.
  assert (L : INR 217 <= INR 100 * log10 148).
  { apply log10_IZR_lower; [lia |]. vm_compute. discriminate. }
  assert (U : INR 100 * log10 154 <= INR 219).
  { apply log10_IZR_upper; [lia |]. vm_compute. discriminate. }
  rewrite !INR_IZR_INZ in L, U. simpl Z.of_nat in L, U. lra.
Qed.

Lemma initial_pH_value :
  exists p : R, initial_pH = Returns (Fin p) /\ Rabs (p - 2.82) <= 0.01.
Proof.
  set (h := root1 1 1.76E-5 (-0.131 * 1.76E-5)).
  assert (HD : 0 <= discriminant 1 1.76E-5 (-0.131 * 1.76E-5))
    by (unfold discriminant; lra).
  assert (Hlo : 1.48E-3 < h) by (apply below_root1; lra).
  assert (Hhi : h < 1.54E-3) by (apply above_root1; lra).
  exists (- log10 h). split.
  - unfold initial_pH. rewrite quad_solve_Fin by (lra || exact HD).
    cbn [bind getitem nth_error]. fold h.
    rewrite np_log10_Fin by lra. reflexivity.
  - assert (H1 : log10 1.48E-3 < log10 h) by (apply log10_lt; lra).
    assert (H2 : log10 h < log10 1.54E-3) by (apply log10_lt; lra).
    replace 1.48E-3 with (148 / 10 ^ 5) in H1 by lra.
    replace 1.54E-3 with (154 / 10 ^ 5) in H2 by lra.
    rewrite log10_div_pow10 in H1, H2 by lra. cbn [INR] in H1, H2.
    pose proof log10_148_154 as [L U].
    apply Rabs_le. lra.
Qed.

(** * Further properties of the notebook's cells *)

(** ** Cell 2: the moles balance at the equivalence point *)

Lemma equivalence_returns_nonzero (Va Ca Cb : R) (e : EquivalencePoint) :
  equivalence Va Ca Cb = Returns e -> Cb <> 0.
Proof.
  intros He HCb. subst Cb. unfold equivalence, truediv in He.
  destruct (Req_dec_T 0 0) as [_ | N]; [discriminate He | apply N; reflexivity].
Qed.

(** Whenever cell 2 succeeds, the titrant added at the equivalence point holds
    exactly the initial moles of acid, and at the half-equivalence point the
    moles of base added equal the moles of acid left; the inputs need not be
    positive. *)
Theorem equivalence_moles_balance (Va Ca Cb : R) (e : EquivalencePoint) :
  equivalence Va Ca Cb = Returns e ->
  acid_MolI e = Va * Ca
  /\ eq_pt e * Cb = acid_MolI e
  /\ half_eq_pt e + half_eq_pt e = eq_pt e
  /\ half_eq_pt e * Cb = acid_MolI e - half_eq_pt e * Cb.
Proof.
  intros He. pose proof (equivalence_returns_nonzero Va Ca Cb e He) as HCb.
  rewrite equivalence_nonzero in He by assumption. injection He as <-.
  cbn [acid_MolI eq_pt half_eq_pt].
  split; [reflexivity |]. split; [field; assumption |].
  split; [field; assumption | field; assumption].
Qed.

Lemma equivalence_moles_balance_witness :
  eq_pt notebook_point * Notebook5.base_Con = acid_MolI notebook_point.
Proof.
  apply (equivalence_moles_balance Notebook5.acid_VolI Notebook5.acid_ConI
           Notebook5.base_Con notebook_point).
  exact notebook_equivalence.
Defined.

(** ** Cell 5: the mass balance of the two concentrations *)

(** At every finite volume [v] other than [-V_a], the two initial
    concentrations of cell 5 are finite; the conjugate base holds the moles of
    base added, and acid and conjugate base together hold the initial moles of
    acid, both diluted to the total volume [v + V_a]. *)
Theorem concentrations_mass_balance (Va Ca Cb v : R) :
  v + Va <> 0 ->
  exists A HA : R,
    init_baseConc Va Cb (Fin v) = Fin A
    /\ init_acidConc Va Ca Cb (Fin v) = Fin HA
    /\ A * (v + Va) = v * Cb
    /\ (A + HA) * (v + Va) = Ca * Va.
Proof.
  intros Hv. exists (baseConc Va Cb v), (acidConc Va Ca Cb v).
  split; [unfold init_baseConc, baseConc; cbn [mul add]; apply div_Fin; assumption |].
  split.
  - unfold init_acidConc, acidConc. cbn [mul add sub neg].
    rewrite div_Fin by assumption. reflexivity.
  - unfold baseConc, acidConc. split; field; assumption.
Qed.

Lemma concentrations_mass_balance_witness :
  exists A HA : R,
    init_baseConc 1 1 (Fin (1 / 4)) = Fin A
    /\ init_acidConc 1 1 1 (Fin (1 / 4)) = Fin HA
    /\ A * (1 / 4 + 1) = 1 / 4 * 1
    /\ (A + HA) * (1 / 4 + 1) = 1 * 1.
Proof. apply (concentrations_mass_balance 1 1 1 (1 / 4)). lra. Defined.

(** The concentrations at the three landmarks of the titration, for positive
    inputs: no conjugate base and all the acid at [v = 0]; equal
    concentrations at the half-equivalence point; no acid left at the
    equivalence point. *)
Theorem concentrations_at_landmarks (Va Ca Cb : R) (e : EquivalencePoint) :
  0 < Va -> 0 < Ca -> 0 < Cb ->
  equivalence Va Ca Cb = Returns e ->
  init_baseConc Va Cb (Fin 0) = Fin 0
  /\ init_acidConc Va Ca Cb (Fin 0) = Fin Ca
  /\ init_baseConc Va Cb (Fin (half_eq_pt e))
     = init_acidConc Va Ca Cb (Fin (half_eq_pt e))
  /\ is_finite (init_baseConc Va Cb (Fin (half_eq_pt e))) = true
  /\ init_acidConc Va Ca Cb (Fin (eq_pt e)) = Fin 0.
Proof.
  intros HVa HCa HCb He.
  rewrite equivalence_nonzero in He by lra. injection He as <-.
  cbn [eq_pt half_eq_pt].
  pose proof (V_eq_pos Va Ca Cb HVa HCa HCb) as HVeq.
  rewrite !init_baseConc_Fin, !init_acidConc_Fin by lra.
  unfold baseConc, acidConc. cbn [is_finite].
  split; [f_equal; field; lra |].
  split; [f_equal; field; lra |].
  split.
  { replace (Ca * Va - Va * Ca / Cb / 2 * Cb) with (Va * Ca / Cb / 2 * Cb)
      by (field; lra).
    reflexivity. }
  split; [reflexivity |].
  replace (Ca * Va - Va * Ca / Cb * Cb) with 0 by (field; lra).
  f_equal. unfold Rdiv. apply Rmult_0_l.
Qed.

Lemma concentrations_at_landmarks_witness :
  init_acidConc Notebook5.acid_VolI Notebook5.acid_ConI Notebook5.base_Con (Fin 0)
  = Fin Notebook5.acid_ConI.
Proof.
  apply (concentrations_at_landmarks Notebook5.acid_VolI Notebook5.acid_ConI
           Notebook5.base_Con notebook_point).
  - unfold Notebook5.acid_VolI. lra.
  - unfold Notebook5.acid_ConI. lra.
  - unfold Notebook5.base_Con. lra.
  - exact notebook_equivalence.
Defined.

(** ** Cell 4: more on [quad_solve] *)

(** Negating all three coefficients leaves the equation unchanged and swaps
    the two returned values. *)
Theorem quad_solve_negated (a b c : R) :
  a <> 0 -> 0 <= b * b - 4 * a * c ->
  exists r1 r2 : R,
    quad_solve (Fin a) (Fin b) (Fin c) = Returns [Fin r1; Fin r2]
    /\ quad_solve (Fin (- a)) (Fin (- b)) (Fin (- c)) = Returns [Fin r2; Fin r1].
Proof.
  intros Ha HD. fold (discriminant a b c) in HD.
  assert (ED : discriminant (- a) (- b) (- c) = discriminant a b c)
    by (unfold discriminant; ring).
  exists (root1 a b c), (root2 a b c).
  split; [apply quad_solve_Fin; assumption |].
  rewrite quad_solve_Fin by (lra || (rewrite ED; exact HD)).
  unfold root1, root2. rewrite ED.
  f_equal. f_equal; [f_equal; field; assumption |].
  f_equal. f_equal. field. assumption.
Qed.

Lemma quad_solve_negated_witness :
  exists r1 r2 : R,
    quad_solve (Fin 1) (Fin (-3)) (Fin 2) = Returns [Fin r1; Fin r2]
    /\ quad_solve (Fin (- 1)) (Fin (- -3)) (Fin (- 2)) = Returns [Fin r2; Fin r1].
Proof. apply (quad_solve_negated 1 (-3) 2); lra. Defined.

(** ** The whole run: when it fails *)

Lemma pre_pH_at_returns (Va Ca Cb Ka hw : R) (v : float64) :
  exists p : float64, pre_pH_at Va Ca Cb Ka hw v = Returns p.
Proof.
  unfold pre_pH_at, preH3Oconc, pre_solutions, quad_solve, ret.
  cbn [bind getitem nth_error]. eexists. reflexivity.
Qed.

Lemma pre_pH_returns (Va Ca Cb Ka hw : R) (vols : list float64) :
  exists pHs : list float64,
    pre_pH Va Ca Cb Ka hw vols = Returns pHs /\ length pHs = length vols.
Proof.
  unfold pre_pH. induction vols as [| v vols IH].
  - exists []. split; reflexivity.
  - destruct IH as (pHs & E & L).
    destruct (pre_pH_at_returns Va Ca Cb Ka hw v) as (p & Ep).
    exists (p :: pHs). cbn [mapM]. rewrite Ep. cbn [bind]. rewrite E. cbn [bind].
    split; [reflexivity | cbn [length]; rewrite L; reflexivity].
Qed.

Lemma linspace_returns (start stop : float64) (n : Z) :
  (0 <= n)%Z ->
  exists (y : list float64) (step : float64),
    linspace start stop n = Returns (y, step) /\ length y = Z.to_nat n.
Proof.
  intros Hn. unfold linspace, ret.
  destruct (Z.ltb_spec n 0) as [H | _]; [lia |].
  eexists _, _. split; [reflexivity |].
  unfold arange. rewrite !length_map, length_seq. reflexivity.
Qed.

Lemma linspace_negative (start stop : float64) (n : Z) :
  (n < 0)%Z -> linspace start stop n = Raises ValueError.
Proof.
  intros Hn. unfold linspace.
  destruct (Z.ltb_spec n 0) as [_ | H]; [reflexivity | lia].
Qed.

(** The run of cells 2, 3 and 5 fails in exactly two cases: a zero titrant
    concentration ([ZeroDivisionError], raised by cell 2 before anything else)
    and, failing that, a negative number of samples ([ValueError] from
    [np.linspace]).  In every other case, whatever the signs of the other
    inputs, it returns one pH per volume; with zero samples both arrays are
    empty. *)
Theorem titration_raises_iff (Va Ca Cb Ka hw : R) (n : Z) :
  (raises (titration Va Ca Cb n Ka hw) <-> Cb = 0 \/ (n < 0)%Z)
  /\ (Cb = 0 -> titration Va Ca Cb n Ka hw = Raises ZeroDivisionError)
  /\ (Cb <> 0 -> (n < 0)%Z -> titration Va Ca Cb n Ka hw = Raises ValueError)
  /\ (Cb <> 0 -> (0 <= n)%Z ->
      exists vols pHs : list float64,
        titration Va Ca Cb n Ka hw = Returns (vols, pHs)
        /\ length vols = Z.to_nat n
        /\ length pHs = Z.to_nat n)
  /\ (Cb <> 0 -> titration Va Ca Cb 0 Ka hw = Returns ([], [])).
Proof.
  assert (Hzero : Cb = 0 -> titration Va Ca Cb n Ka hw = Raises ZeroDivisionError).
  { intros ->. unfold titration, equivalence, truediv.
    destruct (Req_dec_T 0 0) as [_ | N]; [reflexivity | exfalso; apply N; reflexivity]. }
  assert (Hneg : Cb <> 0 -> (n < 0)%Z ->
                 titration Va Ca Cb n Ka hw = Raises ValueError).
  { intros HCb Hn. unfold titration. rewrite equivalence_nonzero by assumption.
    cbn [bind]. unfold volumes. rewrite linspace_negative by assumption.
    reflexivity. }
  assert (Hok : Cb <> 0 -> (0 <= n)%Z ->
                exists vols pHs : list float64,
                  titration Va Ca Cb n Ka hw = Returns (vols, pHs)
                  /\ length vols = Z.to_nat n
                  /\ length pHs = Z.to_nat n).
  { intros HCb Hn. unfold titration. rewrite equivalence_nonzero by assumption.
    cbn [bind]. unfold volumes. cbn [half_eq_pt eq_pt].
    destruct (linspace_returns (Fin 0) (Fin (Va * Ca / Cb / 2)) n Hn)
      as (y1 & s1 & E1 & L1).
    destruct (linspace_returns (Fin (Va * Ca / Cb / 2)) (Fin (Va * Ca / Cb)) n Hn)
      as (y2 & s2 & E2 & L2).
    rewrite E1. cbn [bind fst snd]. rewrite E2. cbn [bind ret fst snd PreHalfEqVols].
    destruct (pre_pH_returns Va Ca Cb Ka hw y1) as (pHs & E & L).
    rewrite E. cbn [bind].
    exists y1, pHs. split; [reflexivity |]. split; [exact L1 | rewrite L; exact L1]. }
  split; [| split; [exact Hzero | split; [exact Hneg | split; [exact Hok |]]]].
  - split.
    + intros [x Hx].
      destruct (Req_dec_T Cb 0) as [E | N]; [left; exact E | right].
      destruct (Z_lt_le_dec n 0) as [H | H]; [exact H | exfalso].
      destruct (Hok N H) as (vols & pHs & E & _). rewrite E in Hx. discriminate Hx.
    + intros [E | H].
      * eexists. apply Hzero, E.
      * destruct (Req_dec_T Cb 0) as [E | N].
        -- eexists. apply Hzero, E.
        -- eexists. apply Hneg; assumption.
  - intros HCb. unfold titration. rewrite equivalence_nonzero by assumption.
    reflexivity.
Qed.

Lemma titration_raises_iff_witness :
  exists vols pHs : list float64,
    titration (-1) 1 1 3 1.76E-5 1E-7 = Returns (vols, pHs)
    /\ length vols = 3%nat
    /\ length pHs = 3%nat.
Proof.
  apply (titration_raises_iff (-1) 1 1 1.76E-5 1E-7 3); [lra | lia].
Defined.

(** ** Cell 3: the two grids fit together *)

Lemma grid_nth_out (lo hi : R) (n : Z) (i : nat) :
  (Z.to_nat n <= i)%nat -> nth_error (grid lo hi n) i = None.
Proof.
  intros Hi. apply nth_error_None. rewrite grid_length. exact Hi.
Qed.

(** Splitting [[0, V_eq)] at its midpoint into two grids of [n] samples gives
    the grid of [2 n] samples of the whole interval. *)
Lemma grid_halves (V : R) (n : Z) :
  (1 <= n)%Z ->
  grid 0 (V / 2) n ++ grid (V / 2) V n = grid 0 V (2 * n).
Proof.
  intros Hn.
  assert (HnR : 0 < IZR n) by (apply IZR_lt; lia).
  assert (E2n : Z.to_nat (2 * n) = (Z.to_nat n + Z.to_nat n)%nat) by lia.
  assert (EN : INR (Z.to_nat n) = IZR n) by (rewrite INR_IZR_INZ; f_equal; lia).
  apply nth_error_ext. intros i.
  destruct (Nat.lt_ge_cases i (Z.to_nat n)) as [Hi | Hi].
  - rewrite nth_error_app1 by (rewrite grid_length; exact Hi).
    rewrite !grid_nth by lia.
    do 2 f_equal. unfold grid_point. rewrite mult_IZR. field. lra.
  - rewrite nth_error_app2 by (rewrite grid_length; exact Hi).
    rewrite grid_length.
    destruct (Nat.lt_ge_cases i (Z.to_nat (2 * n))) as [Hi2 | Hi2].
    + rewrite !grid_nth by lia.
      do 2 f_equal. unfold grid_point. rewrite mult_IZR, minus_INR by exact Hi.
      rewrite EN. field. lra.
    + rewrite !grid_nth_out by lia. reflexivity.
Qed.

(** For positive inputs and [n >= 1] samples, cell 3 uses one and the same
    step for both grids, [V_half / n], and [PreHalfEqVols] followed by
    [PostHalfEqVols] is the evenly spaced grid of [2 n] volumes of
    [[0, V_eq)]: the half-equivalence point is the first post-half volume and
    occurs once. *)
Theorem volumes_contiguous (Va Ca Cb : R) (n : Z) (e : EquivalencePoint) :
  0 < Va -> 0 < Ca -> 0 < Cb -> (1 <= n)%Z ->
  equivalence Va Ca Cb = Returns e ->
  exists g : VolumeGrids,
    volumes n e = Returns g
    /\ VolStep g = Fin (half_eq_pt e / IZR n)
    /\ VolStep2 g = VolStep g
    /\ nth_error (PostHalfEqVols g) 0 = Some (Fin (half_eq_pt e))
    /\ PreHalfEqVols g ++ PostHalfEqVols g = grid 0 (eq_pt e) (2 * n).
Proof.
  intros HVa HCa HCb Hn He.
  rewrite equivalence_nonzero in He by lra. injection He as <-.
  cbn [eq_pt half_eq_pt].
  pose proof (V_eq_pos Va Ca Cb HVa HCa HCb) as HVeq.
  assert (HnR : 0 < IZR n) by (apply IZR_lt; lia).
  eexists. split.
  { unfold volumes. cbn [eq_pt half_eq_pt].
    rewrite !linspace_grid by (lra || lia). cbn [bind ret fst snd]. reflexivity. }
  cbn [VolStep VolStep2 PreHalfEqVols PostHalfEqVols].
  split; [f_equal; field; lra |].
  split; [f_equal; field; lra |].
  split.
  - rewrite grid_nth by lia. unfold grid_point. cbn [INR]. do 2 f_equal. lra.
  - apply grid_halves. exact Hn.
Qed.

Lemma volumes_contiguous_witness :
  exists g : VolumeGrids,
    volumes Notebook5.datapts notebook_point = Returns g
    /\ VolStep g = Fin (half_eq_pt notebook_point / IZR Notebook5.datapts)
    /\ VolStep2 g = VolStep g
    /\ nth_error (PostHalfEqVols g) 0 = Some (Fin (half_eq_pt notebook_point))
    /\ PreHalfEqVols g ++ PostHalfEqVols g
       = grid 0 (eq_pt notebook_point) (2 * Notebook5.datapts).
Proof.
  apply (volumes_contiguous Notebook5.acid_VolI Notebook5.acid_ConI
           Notebook5.base_Con).
  - unfold Notebook5.acid_VolI. lra.
  - unfold Notebook5.acid_ConI. lra.
  - unfold Notebook5.base_Con. lra.
  - unfold Notebook5.datapts. lia.
  - exact notebook_equivalence.
Defined.

(** ** Cell 4: the test of the solver *)

Lemma log10_150_152 : 2.175 <= log10 150 /\ log10 152 <= 2.185.
Proof.
  assert (L : INR 435 <= INR 200 * log10 150).
  { apply log10_IZR_lower; [lia |]. vm_compute. discriminate. }
  assert (U : INR 200 * log10 152 <= INR 437).
  { apply log10_IZR_upper; [lia |]. vm_compute. discriminate. }
  rewrite !INR_IZR_INZ in L, U. simpl Z.of_nat in L, U. lra.
Qed.

(** The test at the end of cell 4 returns a pH strictly between [2.815] and
    [2.825]: to three significant digits it is the [2.82] recorded in the
    notebook's output. *)
Theorem initial_pH_printed :
  exists p : R, initial_pH = Returns (Fin p) /\ 2.815 < p < 2.825.
Proof.
  set (h := root1 1 1.76E-5 (-0.131 * 1.76E-5)).
  assert (HD : 0 <= discriminant 1 1.76E-5 (-0.131 * 1.76E-5))
    by (unfold discriminant; lra).
  assert (Hlo : 1.50E-3 < h) by (apply below_root1; lra).
  assert (Hhi : h < 1.52E-3) by (apply above_root1; lra).
  exists (- log10 h). split.
  - unfold initial_pH. rewrite quad_solve_Fin by (lra || exact HD).
    cbn [bind getitem nth_error]. fold h.
    rewrite np_log10_Fin by lra. reflexivity.
  - assert (H1 : log10 1.50E-3 < log10 h) by (apply log10_lt; lra).
    assert (H2 : log10 h < log10 1.52E-3) by (apply log10_lt; lra).
    replace 1.50E-3 with (150 / 10 ^ 5) in H1 by lra.
    replace 1.52E-3 with (152 / 10 ^ 5) in H2 by lra.
    rewrite log10_div_pow10 in H1, H2 by lra. cbn [INR] in H1, H2.
    pose proof log10_150_152 as [L U]. lra.
Qed.

(** * The program in binary64: properties *)

Module Binary64Properties.

Import Floats Binary64.
Local Open Scope float_scope.
#[local] Set Warnings "-inexact-float".

(** ** Comparisons and [nan] *)

Lemma SFcompare_refl (f : spec_float) : f <> S754_nan -> SFcompare f f = Some Eq.
Proof.
  destruct f as [s | s | | s m e]; intros H; cbn.
  - reflexivity.
  - destruct s; reflexivity.
  - contradiction.
  - destruct s; rewrite Z.compare_refl, Pos.compare_cont_refl; reflexivity.
Qed.










(** ** The sign of a rounded result

    Rounding keeps the sign it is given and never produces [nan]. *)

Section Rounding.

Variables prec emax : Z.




















Lemma SFdiv_zero_not_finite (x : spec_float) (s : bool) :
  ~ SFfinite (SFdiv prec emax x (S754_zero s)).
Proof. destruct x; cbn; auto. Qed.

End Rounding.

(** ** Classes of binary64 values *)

Lemma is_finite_SFfinite (x : float) : is_finite x = true <-> SFfinite (Prim2SF x).
Proof.
  unfold is_finite, is_nan, is_infinity. rewrite !eqb_spec, abs_spec.
  change (Prim2SF infinity) with (S754_infinity false). unfold SFeqb.
  destruct (Prim2SF x) as [s | s | | s m e].
  - cbn. tauto.
  - destruct s; cbn; split; (discriminate || contradiction).
  - cbn. split; (discriminate || contradiction).
  - rewrite SFcompare_refl by discriminate. cbn. tauto.
Qed.






(** ** Cell 4 on any input *)

Lemma pow2_val (b b2 : number) : pow2 b = Returns b2 -> val b2 = val b * val b.
Proof.
  destruct b as [x | x]; unfold pow2; cbn [val].
  - destruct (is_infinity (x * x) && negb (is_infinity x)); [discriminate |].
    intros H. injection H as <-. reflexivity.
  - intros H. injection H as <-. reflexivity.
Qed.

Lemma truediv_numpy (x : float) (y : number) :
  truediv (NpFloat x) y = Returns (NpFloat (x / val y)).
Proof. destruct y; reflexivity. Qed.

(** Once [b ** 2] is computed, the solver returns two numpy values. *)
Lemma quad_solve_values (a b c b2 : number) :
  pow2 b = Returns b2 ->
  let discrim := sqrt (val b * val b - 4 * val a * val c) in
  quad_solve a b c
  = Returns [NpFloat ((- val b + discrim) / (2 * val a));
             NpFloat ((- val b - discrim) / (2 * val a))].
Proof.
  intros H discrim. unfold quad_solve. rewrite H. cbn [bind].
  pose proof (pow2_val b b2 H) as E.
  assert (Ed : np_sqrt (minus b2 (times (times (PyFloat 4) a) c)) = NpFloat discrim).
  { unfold np_sqrt, discrim. f_equal. f_equal.
    destruct b2, a, c; cbn in *; rewrite E; reflexivity. }
  rewrite Ed.
  replace (plus (negate b) (NpFloat discrim)) with (NpFloat (- val b + discrim))
    by (destruct b; reflexivity).
  replace (minus (negate b) (NpFloat discrim)) with (NpFloat (- val b - discrim))
    by (destruct b; reflexivity).
  rewrite !truediv_numpy. cbn [bind ret].
  replace (val (times (PyFloat 2) a)) with (2 * val a) by (destruct a; reflexivity).
  reflexivity.
Qed.



(** ** Cell 5: the monic quadratic with a non-positive constant coefficient *)



Section Monic.

Variables b c : float.
Hypothesis b_finite : is_finite b = true.
Hypothesis c_nonpos : (c <=? 0) = true.







End Monic.


(** ** Whole runs on the notebook's constants *)











(** ** C3: the values the solver returns *)



(** ** C6: a negative discriminant *)





(** ** C10: the square root in cell 5 *)




(** ** C2: the sign of the selected root *)




(** ** C4: the pH sequence of the computed curve *)





(** ** Cell 4 with a zero leading coefficient *)

(** With [a] equal to zero (of either sign, Python or numpy) the solver
    divides by zero without raising [ZeroDivisionError], because the
    numerators are numpy values: whenever it returns, it returns two values
    neither of which is finite (each is [nan] or an infinity). *)
Theorem quad_solve_zero_leading (a b c : number) (sols : list number) :
  is_zero (val a) = true ->
  quad_solve a b c = Returns sols ->
  exists s1 s2 : float,
    sols = [NpFloat s1; NpFloat s2]
    /\ is_finite s1 = false /\ is_finite s2 = false.
Proof.
  intros Ha H.
  destruct (pow2 b) as [b2 | e] eqn:E.
  - rewrite (quad_solve_values a b c b2 E) in H. cbv zeta in H. injection H as <-.
    eexists _, _. split; [reflexivity |].
    assert (Hz : exists s, Prim2SF (2 * val a) = S754_zero s).
    { unfold is_zero in Ha. rewrite eqb_spec in Ha. rewrite mul_spec.
      change (Prim2SF zero) with (S754_zero false) in Ha.
      change (Prim2SF 2) with (S754_finite false 4503599627370496 (-51)).
      destruct (Prim2SF (val a)) as [s | [|] | | [|] m e]; cbn in Ha; try discriminate.
      exists s. reflexivity. }
    destruct Hz as [s Hz].
    split; apply not_true_is_false; intros Hf; apply is_finite_SFfinite in Hf;
      rewrite div_spec, Hz in Hf; exact (SFdiv_zero_not_finite _ _ _ _ Hf).
  - unfold quad_solve in H. rewrite E in H. discriminate H.
Qed.

Lemma quad_solve_zero_leading_witness :
  quad_solve (PyFloat (-0)) (PyFloat 2) (PyFloat (-6))
  = Returns [NpFloat nan; NpFloat infinity]
  /\ exists s1 s2 : float,
       [NpFloat nan; NpFloat infinity] = [NpFloat s1; NpFloat s2]
       /\ is_finite s1 = false /\ is_finite s2 = false.
Proof.
  split; [reflexivity |].
  apply (quad_solve_zero_leading (PyFloat (-0)) (PyFloat 2) (PyFloat (-6))); reflexivity.
Defined.


(** ** The half-equivalence point and the test of cell 4, as computed *)

(** For the notebook's constants the concentration selected at
    [v = half_eq_pt] is between [0.99 K_a] and [K_a], and the test call of
    cell 4 selects a concentration between [1.50e-3] and [1.52e-3]. *)
Lemma notebook_concentration_at_half :
  exists (e : EquivalencePoint) (h : float),
    equivalence Notebook5.acid_VolI Notebook5.acid_ConI Notebook5.base_Con = Returns e
    /\ preH3Oconc Notebook5.acid_VolI Notebook5.acid_ConI Notebook5.base_Con
         Notebook5.equilibConst Notebook5.H3O_water (half_eq_pt e)
       = Returns (NpFloat h)
    /\ (0.99 * Notebook5.equilibConst <? h) = true
    /\ (h <? Notebook5.equilibConst) = true.
Proof. eexists _, _. repeat split; vm_compute; reflexivity. Qed.

Lemma initial_concentration :
  exists h r : float,
    quad_solve (PyFloat 1) (PyFloat 1.76E-5) (PyFloat (-0.131 * 1.76E-5))
    = Returns [NpFloat h; NpFloat r]
    /\ (1.50e-3 <? h) = true /\ (h <? 1.52e-3) = true.
Proof. eexists _, _. repeat split; vm_compute; reflexivity. Qed.

End Binary64Properties.
